(** * AlertManager: a shallow embedding of [alert_manager.py]

    The manager keeps a bounded in-memory store of alert records, a
    sliding window of admission times, per-address counters and one
    JSON history file that is read and rewritten as a whole.  Every
    Python method becomes a function on an explicit [State]; every
    reading of [datetime.now()] becomes an argument, in the order the
    method reads the clock. *)

From Stdlib Require Import ZArith QArith_base Ascii String.
From stdpp Require Import base list gmap strings sorting.

Local Open Scope string_scope.
Local Open Scope list_scope.
Local Open Scope Z_scope.

(** ** Time

    A naive [datetime] is the number of microseconds since
    0001-01-01T00:00:00; a [timedelta] is a number of microseconds.
    Comparison and subtraction of datetimes are then the ones of [Z]. *)

Definition datetime := Z.

Definition timedelta (days hours minutes : Z) : Z :=
  ((days * 24 + hours) * 60 + minutes) * 60 * 1000000.

Definition usec_per_day : Z := 86400 * 1000000.

(** Proleptic Gregorian calendar: day number (0 = 0001-01-01) to
    (year, month, day) and back. *)
Definition civil_of_days (d0 : Z) : Z * Z * Z :=
  let z := d0 + 306 in
  let era := z / 146097 in
  let doe := z - era * 146097 in
  let yoe := (doe - doe / 1460 + doe / 36524 - doe / 146096) / 365 in
  let doy := doe - (365 * yoe + yoe / 4 - yoe / 100) in
  let mp := (5 * doy + 2) / 153 in
  let d := doy - (153 * mp + 2) / 5 + 1 in
  let m := if mp <? 10 then mp + 3 else mp - 9 in
  let y := yoe + era * 400 in
  (if m <=? 2 then y + 1 else y, m, d).

Definition days_of_civil (y m d : Z) : Z :=
  let y' := if m <=? 2 then y - 1 else y in
  let era := y' / 400 in
  let yoe := y' - era * 400 in
  let doy := (153 * (if 2 <? m then m - 3 else m + 9) + 2) / 5 + d - 1 in
  let doe := yoe * 365 + yoe / 4 - yoe / 100 + doy in
  era * 146097 + doe - 306.

Definition digit (n : Z) : ascii := ascii_of_N (Z.to_N (48 + n mod 10)).

(** [zpad w n]: the last [w] decimal digits of [n], zero padded
    (the [%0wd] of the C formats behind [strftime] and [isoformat]). *)
Fixpoint zpad (w : nat) (n : Z) : string :=
  match w with
  | O => ""
  | S w' => zpad w' (n / 10) +:+ String (digit n) ""
  end.

Record civil := mkCivil
  { c_year : Z; c_month : Z; c_day : Z;
    c_hour : Z; c_minute : Z; c_second : Z; c_microsecond : Z }.

Definition civil_of (t : datetime) : civil :=
  let days := t / usec_per_day in
  let rest := t mod usec_per_day in
  let '(y, m, d) := civil_of_days days in
  let secs := rest / 1000000 in
  mkCivil y m d (secs / 3600) (secs / 60 mod 60) (secs mod 60) (rest mod 1000000).

(** [datetime.strftime('%Y%m%d%H%M%S%f')], for years 1000 to 9999. *)
Definition strftime_compact (t : datetime) : string :=
  let c := civil_of t in
  zpad 4 (c_year c) +:+ zpad 2 (c_month c) +:+ zpad 2 (c_day c) +:+
  zpad 2 (c_hour c) +:+ zpad 2 (c_minute c) +:+ zpad 2 (c_second c) +:+
  zpad 6 (c_microsecond c).

(** [datetime.isoformat()]: the fraction is written only when the
    microsecond field is not zero. *)
Definition isoformat (t : datetime) : string :=
  let c := civil_of t in
  zpad 4 (c_year c) +:+ "-" +:+ zpad 2 (c_month c) +:+ "-" +:+ zpad 2 (c_day c) +:+
  "T" +:+ zpad 2 (c_hour c) +:+ ":" +:+ zpad 2 (c_minute c) +:+ ":" +:+
  zpad 2 (c_second c) +:+
  (if c_microsecond c =? 0 then "" else "." +:+ zpad 6 (c_microsecond c)).

(** A parser for the two shapes [isoformat] writes; it stands for
    [datetime.fromisoformat] wherever a concrete instance is needed.
    [None] is the [ValueError] of the library. *)
Definition digit_val (c : ascii) : option Z :=
  let n := Z.of_N (N_of_ascii c) in
  if (48 <=? n) && (n <=? 57) then Some (n - 48) else None.

Fixpoint number_of (acc : Z) (cs : list ascii) : option Z :=
  match cs with
  | [] => Some acc
  | c :: cs' =>
      match digit_val c with
      | Some v => number_of (acc * 10 + v) cs'
      | None => None
      end
  end.

Definition field (from len : nat) (cs : list ascii) : option Z :=
  let part := take len (drop from cs) in
  if decide (length part = len) then number_of 0 part else None.

Definition sep_at (i : nat) (c : ascii) (cs : list ascii) : bool :=
  bool_decide (cs !! i = Some c).

Definition fromisoformat_canonical (s : string) : option datetime :=
  let cs := list_ascii_of_string s in
  let n := length cs in
  if negb (bool_decide (n = 19%nat) || bool_decide (n = 26%nat)) then None
  else if negb (sep_at 4 "-" cs && sep_at 7 "-" cs && sep_at 10 "T" cs &&
                sep_at 13 ":" cs && sep_at 16 ":" cs) then None
  else if bool_decide (n = 26%nat) && negb (sep_at 19 "." cs) then None
  else
    y ← field 0 4 cs; m ← field 5 2 cs; d ← field 8 2 cs;
    hh ← field 11 2 cs; mm ← field 14 2 cs; ss ← field 17 2 cs;
    us ← (if bool_decide (n = 26%nat) then field 20 6 cs else Some 0);
    let days := days_of_civil y m d in
    if bool_decide (civil_of_days days = (y, m, d)) &&
       (1 <=? y) && (hh <? 24) && (mm <? 60) && (ss <? 60)
    then Some ((days * 86400 + hh * 3600 + mm * 60 + ss) * 1000000 + us)
    else None.

(** ** Python sequence primitives *)

(** [l[-n:]] for a positive constant [n]. *)
Definition py_suffix {A} (n : nat) (l : list A) : list A :=
  drop (length l - n) l.

(** [l[:limit]] for an integer [limit]; a negative bound counts from
    the end. *)
Definition py_prefix {A} (limit : Z) (l : list A) : list A :=
  if 0 <=? limit then take (Z.to_nat limit) l
  else take (length l - Z.to_nat (- limit)) l.

(** [collections.deque(maxlen=...).append]: the new item goes to the
    right end and, when the bound is exceeded, the leftmost goes. *)
Definition deque_append {A} (maxlen : nat) (d : list A) (x : A) : list A :=
  let d' := d ++ [x] in
  if decide (maxlen < length d')%nat then drop 1 d' else d'.

(** [deque(iterable, maxlen=...)] *)
Definition deque_of {A} (maxlen : nat) (l : list A) : list A :=
  foldl (deque_append maxlen) [] l.

(** [list.sort(key=..., reverse=True)] and [sorted(..., reverse=True)]:
    a stable sort into descending key order.  [lt a b] is [key a < key b]. *)
Section Sort.
Context {A : Type} (lt : A -> A -> bool).

Fixpoint insert_desc (x : A) (l : list A) : list A :=
  match l with
  | [] => [x]
  | y :: l' => if lt x y then y :: insert_desc x l' else x :: y :: l'
  end.

Definition sort_desc (l : list A) : list A := foldr insert_desc [] l.

(** [before a b]: [key a < key b] does not hold, so [a] may stand
    before [b] in the sorted list. *)
Definition before (a b : A) : Prop := lt a b = false.
End Sort.

(** [d[k] = d.get(k, 0) + 1] on an insertion-ordered dict. *)
Fixpoint dict_incr (k : string) (d : list (string * nat)) : list (string * nat) :=
  match d with
  | [] => [(k, 1%nat)]
  | (k', n) :: d' =>
      if decide (k' = k) then (k', (n + 1)%nat) :: d' else (k', n) :: dict_incr k d'
  end.

(** ** Data model *)

(** The alert dict built by [create_alert].  A float is carried, never
    computed with, and is kept as the rational it denotes; the key
    ['acknowledged_at'] exists only after an acknowledgment. *)
Record Alert := mkAlert
  { a_id : string;
    a_timestamp : string;
    a_ip : string;
    a_path : string;
    a_method : string;
    a_user_agent : string;
    a_status : Z;
    a_is_suspicious : bool;
    a_confidence : Q;
    a_detection_method : string;
    a_reasons : list string;
    a_severity : string;
    a_ml_scores : list (string * Q);
    a_acknowledged : bool;
    a_notes : string;
    a_acknowledged_at : option string }.

(** [request_data]: every key may be missing. *)
Record RequestData := mkRequest
  { rq_ip : option string;
    rq_path : option string;
    rq_method : option string;
    rq_user_agent : option string;
    rq_status : option Z }.

(** [detection_result]: only ['ml_scores'] may be missing. *)
Record DetectionResult := mkDetection
  { dr_is_suspicious : bool;
    dr_confidence : Q;
    dr_detection_method : string;
    dr_reasons : list string;
    dr_severity : string;
    dr_ml_scores : option (list (string * Q)) }.

(** What is at [data/alert_history.json]: nothing, something that
    [json.load] or the list operations reject, or a JSON array of
    alerts (oldest first). *)
Inductive HistoryFile :=
  | Absent
  | Unreadable
  | Stored (history : list Alert).

Definition records (f : HistoryFile) : list Alert :=
  match f with Stored h => h | _ => [] end.

Record State := mkState
  { alerts : list Alert;                 (* deque(maxlen=1000) *)
    alert_counts : gmap string nat;      (* IP -> count *)
    recent_alerts : list datetime;       (* deque(maxlen=100) *)
    history_file : HistoryFile }.

(** The clock readings of one [create_alert] call, in reading order:
    in [_should_create_alert], in [_generate_alert_id], for
    ['timestamp'] and for the window entry.  A rejected call reads
    only the first. *)
Record Clock := mkClock
  { t_check : datetime; t_id : datetime; t_stamp : datetime; t_window : datetime }.

(** The dict returned by [get_statistics]; the two acknowledgment
    counts are keys of the non-empty branch only. *)
Record Statistics := mkStatistics
  { total_alerts : nat;
    by_severity : list (string * nat);
    by_ip : list (string * nat);
    recent_count : nat;
    acknowledged_count : option nat;
    unacknowledged_count : option nat }.

(** ** Operations *)

Definition alerts_maxlen : nat := 1000.
Definition recent_maxlen : nat := 100.
Definition history_cap : nat := Z.to_nat 10000.

(** [save_alert]: load the whole log, append, keep the last 10000,
    rewrite.  An exception while loading or appending is printed and
    swallowed, which leaves the file as it was; writing a log that was
    loaded, or a first log, is taken to succeed. *)
Definition save_alert (alert : Alert) (f : HistoryFile) : HistoryFile :=
  match f with
  | Absent => Stored (py_suffix history_cap ([] ++ [alert]))
  | Unreadable => Unreadable
  | Stored history => Stored (py_suffix history_cap (history ++ [alert]))
  end.

(** [load_history]: the last 1000 entries of the log go into the
    store, in file order. *)
Definition load_history (s : State) : State :=
  match history_file s with
  | Stored history =>
      mkState (foldl (deque_append alerts_maxlen) (alerts s) (py_suffix 1000 history))
              (alert_counts s) (recent_alerts s) (history_file s)
  | _ => s
  end.

(** [AlertManager.__init__] *)
Definition init (f : HistoryFile) : State :=
  load_history (mkState [] ∅ [] f).

(** The loop of [_should_create_alert]: pop from the left while the
    leftmost entry is older than the cutoff. *)
Fixpoint pop_old (cutoff : datetime) (d : list datetime) : list datetime :=
  match d with
  | [] => []
  | t :: d' => if t <? cutoff then pop_old cutoff d' else d
  end.

Definition mark_acknowledged (notes : string) (now : datetime) (a : Alert) : Alert :=
  mkAlert (a_id a) (a_timestamp a) (a_ip a) (a_path a) (a_method a) (a_user_agent a)
          (a_status a) (a_is_suspicious a) (a_confidence a) (a_detection_method a)
          (a_reasons a) (a_severity a) (a_ml_scores a)
          true notes (Some (isoformat now)).

(** The loop of [acknowledge_alert]: the first alert with the id is
    updated where it stands; the updated alert is returned with the
    new store. *)
Fixpoint acknowledge_first (alert_id notes : string) (now : datetime)
    (l : list Alert) : option (Alert * list Alert) :=
  match l with
  | [] => None
  | a :: l' =>
      if decide (a_id a = alert_id)
      then let a' := mark_acknowledged notes now a in Some (a', a' :: l')
      else match acknowledge_first alert_id notes now l' with
           | Some (a', r) => Some (a', a :: r)
           | None => None
           end
  end.

(** The loop of [get_alert_by_id]: the first alert with the id. *)
Fixpoint find_by_id (alert_id : string) (l : list Alert) : option Alert :=
  match l with
  | [] => None
  | a :: l' => if decide (a_id a = alert_id) then Some a else find_by_id alert_id l'
  end.

(** [_generate_alert_id] *)
Definition _generate_alert_id (now : datetime) : string :=
  "ALERT-" +:+ strftime_compact now.

Definition truthy (s : string) : bool := negb (bool_decide (s = "")).

Section Manager.
(** [Config.MAX_ALERTS_PER_MINUTE], from the [config] module, and
    [datetime.fromisoformat], whose accepted language depends on the
    Python version ([None]: it raises [ValueError]). *)
Variable MAX_ALERTS_PER_MINUTE : Z.
Variable fromisoformat : string -> option datetime.

Definition _should_create_alert (now : datetime) (s : State) : bool * State :=
  let cutoff := now - timedelta 0 0 1 in
  let recent := pop_old cutoff (recent_alerts s) in
  (bool_decide (Z.of_nat (length recent) < MAX_ALERTS_PER_MINUTE),
   mkState (alerts s) (alert_counts s) recent (history_file s)).

Definition create_alert (clk : Clock) (request_data : RequestData)
    (detection_result : DetectionResult) (s : State) : option Alert * State :=
  let '(ok, s1) := _should_create_alert (t_check clk) s in
  if negb ok then (None, s1)
  else
    let alert :=
      mkAlert (_generate_alert_id (t_id clk))
              (isoformat (t_stamp clk))
              (default "unknown" (rq_ip request_data))
              (default "unknown" (rq_path request_data))
              (default "unknown" (rq_method request_data))
              (default "unknown" (rq_user_agent request_data))
              (default 0 (rq_status request_data))
              (dr_is_suspicious detection_result)
              (dr_confidence detection_result)
              (dr_detection_method detection_result)
              (dr_reasons detection_result)
              (dr_severity detection_result)
              (default [] (dr_ml_scores detection_result))
              false "" None in
    let ip := a_ip alert in
    (Some alert,
     mkState (deque_append alerts_maxlen (alerts s1) alert)
             (<[ip := (default 0%nat (alert_counts s1 !! ip) + 1)%nat]> (alert_counts s1))
             (deque_append recent_maxlen (recent_alerts s1) (t_window clk))
             (save_alert alert (history_file s1))).

Definition get_alerts (limit : Z) (severity : option string)
    (acknowledged : option bool) (s : State) : list Alert :=
  let l0 := alerts s in
  let l1 := match severity with
            | Some sev => if truthy sev then filter (λ a, a_severity a = sev) l0 else l0
            | None => l0
            end in
  let l2 := match acknowledged with
            | Some b => filter (λ a, a_acknowledged a = b) l1
            | None => l1
            end in
  py_prefix limit
    (sort_desc (λ a b, String.ltb (a_timestamp a) (a_timestamp b)) l2).

Definition get_alert_by_id (alert_id : string) (s : State) : option Alert :=
  find_by_id alert_id (alerts s).

Definition acknowledge_alert (now : datetime) (alert_id notes : string)
    (s : State) : bool * State :=
  match acknowledge_first alert_id notes now (alerts s) with
  | Some (a', l') =>
      (true, mkState l' (alert_counts s) (recent_alerts s)
                     (save_alert a' (history_file s)))
  | None => (false, s)
  end.

(** [sum(1 for alert in alerts if fromisoformat(alert['timestamp']) > since)];
    [None] when a timestamp does not parse. *)
Fixpoint count_since (since : datetime) (l : list Alert) : option nat :=
  match l with
  | [] => Some 0%nat
  | a :: l' =>
      t ← fromisoformat (a_timestamp a);
      n ← count_since since l';
      Some (if since <? t then S n else n)
  end.

Definition get_statistics (now : datetime) (s : State) : option Statistics :=
  match alerts s with
  | [] => Some (mkStatistics 0 [] [] 0 None None)
  | _ :: _ =>
      let severity_counts :=
        foldl (λ d a, dict_incr (a_severity a) d)
              [("low", 0%nat); ("medium", 0%nat); ("high", 0%nat)] (alerts s) in
      let ip_counts := foldl (λ d a, dict_incr (a_ip a) d) [] (alerts s) in
      let top_ips :=
        take 10 (sort_desc (λ p q : string * nat, Nat.ltb (snd p) (snd q)) ip_counts) in
      let one_hour_ago := now - timedelta 0 1 0 in
      recent ← count_since one_hour_ago (alerts s);
      Some (mkStatistics
              (length (alerts s)) severity_counts top_ips recent
              (Some (length (filter (λ a, a_acknowledged a = true) (alerts s))))
              (Some (length (filter (λ a, a_acknowledged a ≠ true) (alerts s)))))
  end.

(** The comprehension of [clear_old_alerts]; [None] when a timestamp
    does not parse. *)
Fixpoint newer_than (cutoff : datetime) (l : list Alert) : option (list Alert) :=
  match l with
  | [] => Some []
  | a :: l' =>
      t ← fromisoformat (a_timestamp a);
      r ← newer_than cutoff l';
      Some (if cutoff <? t then a :: r else r)
  end.

Definition clear_old_alerts (now : datetime) (days : Z) (s : State) : option State :=
  let cutoff := now - timedelta days 0 0 in
  kept ← newer_than cutoff (alerts s);
  Some (mkState (deque_of alerts_maxlen kept)
                (alert_counts s) (recent_alerts s) (history_file s)).

(** A run of [create_alert] calls, results in call order. *)
Definition Call : Type := Clock * RequestData * DetectionResult.

Fixpoint create_alerts (calls : list Call) (s : State) : list (option Alert) * State :=
  match calls with
  | [] => ([], s)
  | (clk, rq, dr) :: calls' =>
      let '(r, s1) := create_alert clk rq dr s in
      let '(rs, s2) := create_alerts calls' s1 in
      (r :: rs, s2)
  end.

(** States of a manager object: built by [__init__], then changed by
    its methods (the queries change nothing). *)
Inductive reachable : State -> Prop :=
  | reach_init f : reachable (init f)
  | reach_create s clk rq dr :
      reachable s -> reachable (snd (create_alert clk rq dr s))
  | reach_acknowledge s now alert_id notes :
      reachable s -> reachable (snd (acknowledge_alert now alert_id notes s))
  | reach_clear s now days s' :
      reachable s -> clear_old_alerts now days s = Some s' -> reachable s'.

End Manager.

(** ** Notions used in the statements *)

Definition accepted (r : option Alert) : bool :=
  match r with Some _ => true | None => false end.

(** The clock readings of a call all lie in the second that starts
    at [t0]. *)
Definition within_second (t0 : datetime) (c : Call) : Prop :=
  let clk := fst (fst c) in
  Forall (λ t, t0 ≤ t ≤ t0 + 1000000)
         [t_check clk; t_id clk; t_stamp clk; t_window clk].

#[global] Instance within_second_dec t0 c : Decision (within_second t0 c).
Proof. unfold within_second. apply _. Defined.

(** [save_alert] on each record of a list, oldest first. *)
Definition persist_all (l : list Alert) (f : HistoryFile) : HistoryFile :=
  foldl (λ f a, save_alert a f) f l.

(** What the filters of [get_alerts] ask of a record. *)
Definition matches (severity : option string) (acknowledged : option bool)
    (a : Alert) : Prop :=
  match severity with Some sev => a_severity a = sev | None => True end ∧
  match acknowledged with Some b => a_acknowledged a = b | None => True end.

#[global] Instance matches_dec severity acknowledged a :
  Decision (matches severity acknowledged a).
Proof. unfold matches. destruct severity, acknowledged; apply _. Defined.

(** [newer a b]: [a] may stand before [b] in a list sorted by
    ['timestamp'], newest first. *)
Definition newer (a b : Alert) : Prop := String.le (a_timestamp b) (a_timestamp a).

(** ** Sample inputs

    Concrete requests, detections and clock readings on which the
    operations are run below. *)

Definition demo_request (status : Z) : RequestData :=
  mkRequest (Some "10.0.0.7") (Some "/login") (Some "POST") None (Some status).

Definition demo_detection (sev : string) : DetectionResult :=
  mkDetection true (Qmake 9 10) "rule" ["sql injection"] sev None.

(** 2024-03-05T07:08:09.000042 *)
Definition t0 : datetime := 63845219289000042.

(** The [i]-th call of a run whose calls are [gap] microseconds apart;
    the four clock readings of a call are one microsecond apart and
    the request carries [i] as its status. *)
Definition paced_call (gap : Z) (i : nat) : Call :=
  let t := t0 + Z.of_nat i * gap in
  (mkClock t (t + 1) (t + 2) (t + 3), demo_request (Z.of_nat i), demo_detection "high").

Definition paced_calls (gap : Z) (n : nat) : list Call := paced_call gap <$> seq 0 n.

(** Every reading of every call is the same instant. *)
Definition frozen_call (i : nat) : Call :=
  (mkClock t0 t0 t0 t0, demo_request (Z.of_nat i), demo_detection "high").

Definition frozen_calls (n : nat) : list Call := frozen_call <$> seq 0 n.

(** 1001 calls ten seconds apart, at most 10 admissions a minute,
    on a fresh manager without a history file. *)
Abbreviation long_run :=
  (create_alerts 10 (paced_calls 10000000 1001) (init Absent)).

(** The record the first call of that run creates. *)
Definition first_record : Alert :=
  mkAlert "ALERT-20240305070809000043" "2024-03-05T07:08:09.000044"
          "10.0.0.7" "/login" "POST" "unknown" 0 true (Qmake 9 10) "rule"
          ["sql injection"] "high" [] false "" None.

(** A record created one second after [first_record]. *)
Definition second_record : Alert :=
  mkAlert "ALERT-20240305070810000043" "2024-03-05T07:08:10.000044"
          "10.0.0.7" "/login" "POST" "unknown" 1 true (Qmake 9 10) "rule"
          ["sql injection"] "high" [] false "" None.

(** A manager that has admitted one call, then two. *)
Definition one_alert_state : State :=
  snd (create_alert 1 (fst (fst (paced_call 1000000 0))) (demo_request 0)
                    (demo_detection "high") (init Absent)).

Definition two_alert_state : State :=
  snd (create_alerts 10 (paced_calls 1000000 2) (init Absent)).

(** Four calls one second apart with severities low, high, medium,
    high. *)
Definition mixed_calls : list Call :=
  (λ '(i, sev),
     let t := t0 + Z.of_nat i * 1000000 in
     (mkClock t (t + 1) (t + 2) (t + 3), demo_request (Z.of_nat i), demo_detection sev))
  <$> [(0%nat, "low"); (1%nat, "high"); (2%nat, "medium"); (3%nat, "high")].

Definition mixed_state : State := snd (create_alerts 10 mixed_calls (init Absent)).

(** A window whose first entry is 90 seconds older than [t0]. *)
Definition stale_window_state : State :=
  mkState [] ∅ [t0 - 90000000; t0 - 1] Absent.

(** Three calls: at [t0], then with the wall clock set back by 90
    seconds, then at [t0] again. *)
Definition stepped_back_calls : list Call :=
  (λ t, (mkClock t t t t, demo_request 0, demo_detection "high"))
  <$> [t0; t0 - 90000000; t0].

(** Decide a closed decidable proposition by evaluation. *)
Ltac by_computation := apply (bool_decide_unpack _); vm_compute; exact I.


(** ** Further notions used in the statements *)

(** [d.get(k)] on an insertion-ordered dict. *)
Fixpoint dict_get (k : string) (d : list (string * nat)) : option nat :=
  match d with
  | [] => None
  | (k', n) :: d' => if decide (k' = k) then Some n else dict_get k d'
  end.

(** The stored timestamp parses to an instant after [since]. *)
Definition parsed_after (parse : string → option datetime) (since : datetime)
    (a : Alert) : Prop :=
  match parse (a_timestamp a) with Some t => since < t | None => False end.

#[global] Instance parsed_after_dec parse since a : Decision (parsed_after parse since a).
Proof. unfold parsed_after. destruct (parse (a_timestamp a)); apply _. Defined.

(** [more p q]: the pair [p] may stand before [q] in a table sorted
    by count, largest first. *)
Definition more (p q : string * nat) : Prop := (snd q ≤ snd p)%nat.

(** The counting loops of [get_statistics]: one [dict_incr] per item,
    on the key of the item. *)
Definition tally {A} (key : A → string) (d0 : list (string * nat)) (l : list A)
    : list (string * nat) :=
  foldl (λ d a, dict_incr (key a) d) d0 l.

(** The same manager over another history file. *)
Definition with_file (f : HistoryFile) (s : State) : State :=
  mkState (alerts s) (alert_counts s) (recent_alerts s) f.

(** The readings of a run that the rate limiter uses, in reading
    order: of each call the one of the admission check and the one
    recorded in the window. *)
Definition timeline (calls : list Call) : list datetime :=
  c ← calls; [t_check (fst (fst c)); t_window (fst (fst c))].

(** The window entries a run records: the [t_window] reading of each
    admitted call. *)
Fixpoint recorded (calls : list Call) (results : list (option Alert)) : list datetime :=
  match calls, results with
  | c :: calls', Some _ :: results' => t_window (fst (fst c)) :: recorded calls' results'
  | _ :: calls', None :: results' => recorded calls' results'
  | _, _ => []
  end.

(** The window of [s] is what is left of the recorded timestamps
    [rec]: a chronologically ordered tail of them, none later than
    [hi], with at most [K] entries, everything before it being more
    than a minute older than [hi]. *)
Definition window_tracks (K : Z) (s : State) (rec : list datetime) (hi : datetime) : Prop :=
  ∃ old,
    rec = old ++ recent_alerts s ∧
    Forall (λ t, t < hi - timedelta 0 0 1) old ∧
    Forall (λ t, t ≤ hi) (recent_alerts s) ∧
    StronglySorted Z.le (recent_alerts s) ∧
    Z.of_nat (length (recent_alerts s)) ≤ Z.max 0 K.

(** The instants of the years 1 to 9999, the range of [datetime]. *)
Definition valid_instant (t : datetime) : Prop := 0 ≤ t < 3652059 * usec_per_day.

#[global] Instance valid_instant_dec t : Decision (valid_instant t).
Proof. unfold valid_instant. apply _. Defined.

(** The date as the number YYYYMMDD. *)
Definition date_key (ymd : Z * Z * Z) : Z :=
  let '(y, m, d) := ymd in (y * 100 + m) * 100 + d.

(** The steps of [civil_of_days] by name: the year of the era a day
    of the era falls in, the first day of a year of the era (years
    begin on March 1), and month (March is 0) and day of the month of
    a day of such a year. *)
Definition yoe_of (doe : Z) : Z :=
  (doe - doe / 1460 + doe / 36524 - doe / 146096) / 365.

Definition year_start (yoe : Z) : Z := 365 * yoe + yoe / 4 - yoe / 100.

Definition month_day (doy : Z) : Z * Z :=
  let mp := (5 * doy + 2) / 153 in (mp, doy - (153 * mp + 2) / 5 + 1).

(** Year [y] of the era: its first and its last day are given year
    [y], and it has at most 366 days. *)
Definition year_ok (y : Z) : bool :=
  (yoe_of (year_start y) =? y) && (yoe_of (year_start (y + 1) - 1) =? y) &&
  (year_start (y + 1) - year_start y <=? 366).

(** Day [doy] of a year: month and day are in range, and the next
    day of the year comes later in the same month or in a later
    month. *)
Definition month_day_ok (doy : Z) : bool :=
  let '(mp, d) := month_day doy in
  let '(mp', d') := month_day (doy + 1) in
  (0 <=? mp) && (mp <=? 11) && (1 <=? d) && (d <=? 31) &&
  ((doy =? 365) || (mp * 32 + d <? mp' * 32 + d')).

(** [check_pos p n lo]: [p] holds on [lo, lo + n). *)
Fixpoint check_pos (p : Z → bool) (n : positive) (lo : Z) : bool :=
  match n with
  | xH => p lo
  | xO n' => check_pos p n' lo && check_pos p n' (lo + Zpos n')
  | xI n' => p lo && check_pos p n' (lo + 1) && check_pos p n' (lo + 1 + Zpos n')
  end.

(** The record [a] carries the timestamp [datetime.isoformat] writes
    for the instant [t], an instant of the years 1 to 9999. *)
Definition stamped (a : Alert) (t : datetime) : Prop :=
  valid_instant t ∧ a_timestamp a = isoformat t.

(** The readings a run writes into the timestamps of its records. *)
Definition stamps (calls : list Call) : list datetime :=
  (λ c, t_stamp (fst (fst c))) <$> calls.

(** ** Further sample inputs *)

(** The statistics of [mixed_state] six seconds after [t0]. *)
Definition mixed_statistics : Statistics :=
  mkStatistics 4 [("low", 1%nat); ("medium", 1%nat); ("high", 2%nat)]
               [("10.0.0.7", 4%nat)] 4 (Some 0%nat) (Some 4%nat).

(** The clock of the first call of the paced runs, and of a call two
    tenths of a second later. *)
Definition first_clock : Clock := mkClock t0 (t0 + 1) (t0 + 2) (t0 + 3).

Definition third_clock : Clock :=
  mkClock (t0 + 200000) (t0 + 200001) (t0 + 200002) (t0 + 200003).

(** [mixed_state] after a purge, two and a half seconds after [t0],
    of everything that is not newer than that instant. *)
Definition purged_state : State :=
  mkState (drop 3 (alerts mixed_state)) (alert_counts mixed_state)
          (recent_alerts mixed_state) (history_file mixed_state).

(** * Properties *)

(** ** Slices and bounded deques *)

Section Sequences.
Context {A : Type}.
Implicit Types (l d : list A) (x : A) (n : nat).

Lemma py_suffix_length n l : length (py_suffix n l) = (length l `min` n)%nat.
Proof. unfold py_suffix. rewrite length_drop. lia. Qed.

Lemma py_suffix_le n l : (length (py_suffix n l) ≤ n)%nat.
Proof. rewrite py_suffix_length. lia. Qed.

Lemma py_suffix_all n l : (length l ≤ n)%nat → py_suffix n l = l.
Proof.
  intros Hle. unfold py_suffix.
  replace (length l - n)%nat with 0%nat by lia. done.
Qed.

Lemma py_suffix_app n l l' :
  py_suffix n (py_suffix n l ++ l') = py_suffix n (l ++ l').
Proof.
  unfold py_suffix. rewrite !length_app, length_drop.
  rewrite !drop_app, drop_drop, length_drop.
  f_equal; f_equal; lia.
Qed.

Lemma deque_append_length n d x :
  (length d ≤ n)%nat → (length (deque_append n d x) ≤ n)%nat.
Proof.
  intros Hle. unfold deque_append. cbv zeta.
  case_decide as Hc; rewrite ?length_drop; rewrite length_app in *; simpl in *.
  all: lia.
Qed.

Lemma deque_append_suffix n d x :
  (0 < n)%nat → (length d ≤ n)%nat → deque_append n d x = py_suffix n (d ++ [x]).
Proof.
  intros Hn Hle. unfold deque_append, py_suffix. simpl.
  rewrite !length_app. simpl.
  case_decide.
  - by replace (length d + 1 - n)%nat with 1%nat by lia.
  - by replace (length d + 1 - n)%nat with 0%nat by lia.
Qed.

Lemma foldl_deque_append_length n d l :
  (length d ≤ n)%nat → (length (foldl (deque_append n) d l) ≤ n)%nat.
Proof.
  revert d. induction l as [|x l IH]; intros d Hle; simpl; [done|].
  by apply IH, deque_append_length.
Qed.

Lemma foldl_deque_append_suffix n d l :
  (0 < n)%nat → (length d ≤ n)%nat →
  foldl (deque_append n) d l = py_suffix n (d ++ l).
Proof.
  intros Hn. revert d. induction l as [|x l IH]; intros d Hle; simpl.
  - rewrite app_nil_r. by rewrite py_suffix_all.
  - rewrite IH by by apply deque_append_length.
    rewrite deque_append_suffix by done.
    rewrite py_suffix_app. by rewrite <- app_assoc.
Qed.

Lemma deque_of_length n l : (length (deque_of n l) ≤ n)%nat.
Proof. apply foldl_deque_append_length. simpl. lia. Qed.

(** Pushing [n + 1] pairwise distinct items through a deque bounded
    by [n] leaves exactly the last [n], without the first. *)
Lemma py_suffix_overflow n d x l :
  (length d ≤ n)%nat → length l = n → NoDup (x :: l) →
  py_suffix n (d ++ x :: l) = l ∧ x ∉ py_suffix n (d ++ x :: l).
Proof.
  intros Hle Hlen Hnd.
  assert (py_suffix n (d ++ x :: l) = l) as ->.
  { unfold py_suffix. rewrite length_app. simpl.
    replace (length d + S (length l) - n)%nat with (length (d ++ [x])).
    - rewrite (assoc_L (++) d [x] l : d ++ x :: l = (d ++ [x]) ++ l).
      by rewrite drop_app_length.
    - rewrite length_app. simpl. lia. }
  split; [done|]. by apply NoDup_cons_1_1 in Hnd.
Qed.
End Sequences.

(** ** The manager *)

Lemma acknowledge_first_length alert_id notes now l a' l' :
  acknowledge_first alert_id notes now l = Some (a', l') → length l' = length l.
Proof.
  revert a' l'. induction l as [|a l IH]; intros a' l' Hack; simpl in *; [done|].
  case_decide; simplify_eq; [done|].
  destruct (acknowledge_first alert_id notes now l) as [[u r]|] eqn:E; simplify_eq.
  simpl. f_equal. by eapply IH.
Qed.

Lemma save_alert_bounded alert f : (length (records (save_alert alert f)) ≤ history_cap)%nat.
Proof.
  destruct f; unfold save_alert, records; try apply py_suffix_le.
  apply Nat.le_0_l.
Qed.

Lemma alerts_maxlen_pos : (0 < alerts_maxlen)%nat.
Proof. unfold alerts_maxlen. lia. Qed.

Section ManagerProperties.
Variable K : Z.
Variable parse : string -> option datetime.

Lemma create_alert_accepted clk rq dr s a s' :
  create_alert K clk rq dr s = (Some a, s') →
  let window := pop_old (t_check clk - timedelta 0 0 1) (recent_alerts s) in
  Z.of_nat (length window) < K ∧
  alerts s' = deque_append alerts_maxlen (alerts s) a ∧
  recent_alerts s' = deque_append recent_maxlen window (t_window clk) ∧
  alert_counts s' =
    <[a_ip a := (default 0%nat (alert_counts s !! a_ip a) + 1)%nat]> (alert_counts s) ∧
  history_file s' = save_alert a (history_file s).
Proof.
  unfold create_alert, _should_create_alert. cbv zeta.
  case_bool_decide; simpl; intros; simplify_eq. done.
Qed.

Lemma create_alert_rejected clk rq dr s s' :
  create_alert K clk rq dr s = (None, s') →
  let window := pop_old (t_check clk - timedelta 0 0 1) (recent_alerts s) in
  ¬ Z.of_nat (length window) < K ∧
  s' = mkState (alerts s) (alert_counts s) window (history_file s).
Proof.
  unfold create_alert, _should_create_alert. cbv zeta.
  case_bool_decide; simpl; intros; simplify_eq. done.
Qed.

Lemma create_alert_alerts_bound clk rq dr s :
  (length (alerts s) ≤ alerts_maxlen)%nat →
  (length (alerts (snd (create_alert K clk rq dr s))) ≤ alerts_maxlen)%nat.
Proof.
  intros Hle. destruct (create_alert K clk rq dr s) as [[a|] s'] eqn:E; simpl.
  - apply create_alert_accepted in E as (_ & -> & _). by apply deque_append_length.
  - apply create_alert_rejected in E as (_ & ->). done.
Qed.

Lemma reachable_alerts_bound s :
  reachable K parse s → (length (alerts s) ≤ alerts_maxlen)%nat.
Proof.
  induction 1 as [f|s clk rq dr _ IH|s now alert_id notes _ IH|s now days s' _ IH Hc].
  - unfold init, load_history. destruct f; simpl; try lia.
    apply foldl_deque_append_length. simpl. lia.
  - by apply create_alert_alerts_bound.
  - unfold acknowledge_alert.
    destruct (acknowledge_first _ _ _ _) as [[a' l']|] eqn:E; simpl; [|done].
    by rewrite (acknowledge_first_length _ _ _ _ _ _ E).
  - unfold clear_old_alerts in Hc.
    destruct (newer_than _ _ _) as [kept|]; simplify_eq/=.
    apply deque_of_length.
Qed.

(** A run pushes the records it creates through the store deque, in
    call order; rejected calls leave the store alone. *)
Lemma create_alerts_alerts calls s :
  alerts (snd (create_alerts K calls s)) =
    foldl (deque_append alerts_maxlen) (alerts s) (omap id (fst (create_alerts K calls s))).
Proof.
  revert s. induction calls as [|[[clk rq] dr] calls IH]; intros s; simpl; [done|].
  destruct (create_alert K clk rq dr s) as [[a|] s1] eqn:E1;
    specialize (IH s1); destruct (create_alerts K calls s1) as [rs s2]; simpl in *.
  - apply create_alert_accepted in E1 as (_ & <- & _). done.
  - apply create_alert_rejected in E1 as (_ & ->). done.
Qed.

Lemma create_alerts_snd_reachable calls s :
  reachable K parse s → reachable K parse (snd (create_alerts K calls s)).
Proof.
  revert s. induction calls as [|[[clk rq] dr] calls IH]; intros s Hs; simpl; [done|].
  pose proof (reach_create K parse s clk rq dr Hs) as H1.
  destruct (create_alert K clk rq dr s) as [r s1].
  specialize (IH s1 H1).
  by destruct (create_alerts K calls s1) as [rs s2].
Qed.

(** C1. The store of a manager never holds more than 1000 records.
    A run of [create_alert] calls leaves in the store the last 1000 of
    (old store, then the records of the admitted calls) in insertion
    order, so after 1001 distinct records the first is gone and the
    other 1000 are the store.  The history file holds at most 10000
    records after every [save_alert]. *)
Theorem C1_bounded_store_and_history calls s :
  reachable K parse s →
  let run := create_alerts K calls s in
  let recs := omap id (fst run) in
  (length (alerts (snd run)) ≤ alerts_maxlen)%nat ∧
  alerts (snd run) = py_suffix alerts_maxlen (alerts s ++ recs) ∧
  (length recs = S alerts_maxlen → NoDup recs →
     alerts (snd run) = tail recs ∧
     ∀ first, head recs = Some first → first ∉ alerts (snd run)) ∧
  (∀ alert f, (length (records (save_alert alert f)) ≤ history_cap)%nat) ∧
  (∀ s0, reachable K parse s0 → (length (alerts s0) ≤ alerts_maxlen)%nat).
Proof.
  intros Hs run recs.
  pose proof (reachable_alerts_bound s Hs) as Hle.
  pose proof (create_alerts_alerts calls s) as Hstore.
  rewrite foldl_deque_append_suffix in Hstore by (done || apply alerts_maxlen_pos).
  fold run in Hstore. fold recs in Hstore.
  split_and!.
  - rewrite Hstore. apply py_suffix_le.
  - done.
  - intros Hlen Hnd. rewrite Hstore.
    destruct recs as [|first rest]; [done|]. simpl in Hlen.
    destruct (py_suffix_overflow alerts_maxlen (alerts s) first rest) as [-> Hgone];
      [done|lia|done|].
    split; [done|]. by intros ? [= <-].
  - apply save_alert_bounded.
  - apply reachable_alerts_bound.
Qed.

End ManagerProperties.

(** ** Runs whose calls are all admitted *)

Lemma all_accepted_records (rs : list (option Alert)) :
  forallb accepted rs = true → rs = Some <$> omap id rs.
Proof.
  induction rs as [|[a|] rs IH]; simpl; intros Hall; [done| |done].
  f_equal. by apply IH.
Qed.

Lemma NoDup_by_status (l : list Alert) (n : nat) :
  a_status <$> l = Z.of_nat <$> seq 0 n → NoDup l.
Proof.
  intros Hst. apply (NoDup_fmap_1 a_status). rewrite Hst.
  apply NoDup_fmap_2; [apply _|apply NoDup_seq].
Qed.

(** ** The rate limiter *)

Lemma pop_old_fresh cutoff (w : list datetime) :
  Forall (λ t, cutoff ≤ t) w → pop_old cutoff w = w.
Proof.
  destruct 1 as [|t w Ht _]; simpl; [done|].
  destruct (Z.ltb_spec t cutoff); [lia|done].
Qed.

Lemma pop_old_split cutoff (w : list datetime) :
  ∃ old, w = old ++ pop_old cutoff w ∧ Forall (λ t, t < cutoff) old.
Proof.
  induction w as [|t w (old & Hw & Hold)]; simpl.
  - by exists [].
  - destruct (Z.ltb_spec t cutoff).
    + exists (t :: old). split; [by rewrite <- app_comm_cons, <- Hw|by constructor].
    + by exists [].
Qed.

Lemma pop_old_head cutoff (w : list datetime) t :
  head (pop_old cutoff w) = Some t → cutoff ≤ t.
Proof.
  induction w as [|t' w IH]; simpl; [done|].
  destruct (Z.ltb_spec t' cutoff); [done|]. simpl. by intros [= <-].
Qed.

Lemma filter_all {A} (P : A → Prop) `{∀ x, Decision (P x)} (l : list A) :
  Forall P l → filter P l = l.
Proof.
  induction 1 as [|x l Hx _ IH]; [done|]. rewrite filter_cons_True by done. by f_equal.
Qed.

Lemma filter_none {A} (P : A → Prop) `{∀ x, Decision (P x)} (l : list A) :
  Forall (λ x, ¬ P x) l → filter P l = [].
Proof.
  induction 1 as [|x l Hx _ IH]; [done|]. by rewrite filter_cons_False.
Qed.

(** On a window in chronological order the loop removes exactly the
    entries older than the cutoff. *)
Lemma pop_old_sorted cutoff (w : list datetime) :
  Sorted Z.le w → pop_old cutoff w = filter (λ t, cutoff ≤ t) w.
Proof.
  intros Hs. apply Sorted_StronglySorted in Hs; [|intros ???; lia].
  induction Hs as [|t w Hs IH Hall]; simpl; [done|].
  destruct (Z.ltb_spec t cutoff).
  - rewrite filter_cons_False by lia. done.
  - symmetry. apply filter_all. constructor; [done|].
    eapply Forall_impl; [exact Hall|]. simpl. lia.
Qed.

Lemma burst_results (K : nat) t0 calls s :
  (K ≤ recent_maxlen)%nat →
  (length (recent_alerts s) ≤ K)%nat →
  Forall (λ t, t0 ≤ t) (recent_alerts s) →
  Forall (within_second t0) calls →
  let room := (K - length (recent_alerts s))%nat in
  ∃ recs,
    fst (create_alerts (Z.of_nat K) calls s) =
      (Some <$> recs) ++ replicate (length calls - room) None ∧
    length recs = (room `min` length calls)%nat.
Proof.
  intros HK. revert s.
  induction calls as [|[[clk rq] dr] calls IH]; intros s Hlen Hfresh Hcalls room.
  - exists []. simpl. split; [done|lia].
  - apply Forall_cons in Hcalls as [Hclk Hcalls].
    unfold within_second in Hclk. simpl in Hclk.
    apply Forall_cons in Hclk as [Hcheck Hclk].
    apply Forall_cons in Hclk as [_ Hclk].
    apply Forall_cons in Hclk as [_ Hclk].
    apply Forall_cons in Hclk as [Hwin _].
    assert (pop_old (t_check clk - timedelta 0 0 1) (recent_alerts s) = recent_alerts s)
      as Hpop.
    { apply pop_old_fresh. eapply Forall_impl; [exact Hfresh|].
      simpl. unfold timedelta. lia. }
    simpl.
    destruct (create_alert (Z.of_nat K) clk rq dr s) as [[a|] s1] eqn:E1.
    + apply create_alert_accepted in E1 as (Hroom & _ & Hwindow & _).
      rewrite Hpop in Hroom, Hwindow.
      assert (recent_alerts s1 = recent_alerts s ++ [t_window clk]) as Hs1.
      { rewrite Hwindow. unfold deque_append. cbv zeta.
        rewrite decide_False; [done|].
        rewrite length_app. simpl. unfold recent_maxlen in *. lia. }
      destruct (IH s1) as (recs & Hrun & Hrecs).
      * rewrite Hs1, length_app. simpl. lia.
      * rewrite Hs1. apply Forall_app. split; [done|]. constructor; [lia|done].
      * done.
      * destruct (create_alerts (Z.of_nat K) calls s1) as [rs s2]. simpl in *.
        exists (a :: recs). rewrite Hs1, length_app in Hrun, Hrecs. simpl in *.
        subst room. split.
        -- rewrite Hrun. do 3 f_equal. lia.
        -- lia.
    + apply create_alert_rejected in E1 as (Hfull & ->).
      rewrite Hpop in Hfull |- *.
      destruct (IH (mkState (alerts s) (alert_counts s) (recent_alerts s)
                            (history_file s))) as (recs & Hrun & Hrecs); try done.
      destruct (create_alerts _ calls _) as [rs s2]. simpl in *.
      assert (room = 0%nat) as Hroom0 by (subst room; lia).
      rewrite Hroom0 in *.
      assert (recs = []) as -> by (destruct recs; [done|simpl in *; lia]).
      exists []. split; [|done]. simpl.
      rewrite Hrun. simpl. f_equal. f_equal. lia.
Qed.

Lemma filter_is_Some_accepted (recs : list Alert) (m : nat) :
  filter is_Some ((Some <$> recs) ++ replicate m None) = Some <$> recs ∧
  filter (λ r : option Alert, r = None) ((Some <$> recs) ++ replicate m None)
    = replicate m None.
Proof.
  rewrite !filter_app. split.
  - rewrite filter_all, filter_none, app_nil_r; [done| |].
    + apply Forall_replicate. by intros [? ?].
    + apply Forall_fmap, Forall_true. by eexists.
  - rewrite filter_none, filter_all; [done| |].
    + by apply Forall_replicate.
    + apply Forall_fmap, Forall_true. done.
Qed.

(** C2. With at most [K] admissions a minute, [K] not above the
    capacity 100 of the window, [K + 1] calls within one second on an
    empty window give [K] records and then one [None].  Every
    admission check pops the entries older than 60 seconds off the
    front of the window, which are all such entries when the window is
    in chronological order; a timestamp is recorded exactly when the
    window that remains is shorter than [K]. *)
Theorem C2_rate_limit_within_capacity (K : nat) t0 calls s :
  (K ≤ recent_maxlen)%nat →
  recent_alerts s = [] →
  length calls = S K →
  Forall (within_second t0) calls →
  let results := fst (create_alerts (Z.of_nat K) calls s) in
  (∃ recs, results = (Some <$> recs) ++ [None] ∧ length recs = K) ∧
  length (filter is_Some results) = K ∧
  length (filter (λ r, r = None) results) = 1%nat ∧
  (∀ now s0,
     let cutoff := now - timedelta 0 0 1 in
     let window := recent_alerts (snd (_should_create_alert (Z.of_nat K) now s0)) in
     window = pop_old cutoff (recent_alerts s0) ∧
     (∃ old, recent_alerts s0 = old ++ window ∧ Forall (λ t, t < cutoff) old) ∧
     (∀ t, head window = Some t → cutoff ≤ t) ∧
     (Sorted Z.le (recent_alerts s0) →
        window = filter (λ t, cutoff ≤ t) (recent_alerts s0))) ∧
  (∀ clk rq dr s0,
     let window := pop_old (t_check clk - timedelta 0 0 1) (recent_alerts s0) in
     let result := create_alert (Z.of_nat K) clk rq dr s0 in
     if decide (Z.of_nat (length window) < Z.of_nat K)
     then is_Some (fst result) ∧
          recent_alerts (snd result) = deque_append recent_maxlen window (t_window clk)
     else fst result = None ∧ recent_alerts (snd result) = window).
Proof.
  intros HK Hempty Hlen Hcalls results.
  destruct (burst_results K t0 calls s HK) as (recs & Hrun & Hrecs);
    [rewrite Hempty; simpl; lia|by rewrite Hempty|done|].
  rewrite Hempty, Hlen in Hrun, Hrecs. simpl in Hrun, Hrecs.
  replace (S K - (K - 0))%nat with 1%nat in Hrun by lia.
  assert (length recs = K) as HrecsK by lia.
  fold results in Hrun. simpl in Hrun.
  destruct (filter_is_Some_accepted recs 1) as [HSome HNone]. simpl in HSome, HNone.
  split_and!.
  - by exists recs.
  - by rewrite Hrun, HSome, length_fmap.
  - by rewrite Hrun, HNone.
  - intros now s0 cutoff window. subst window. simpl. split_and!.
    + done.
    + apply pop_old_split.
    + apply pop_old_head.
    + apply pop_old_sorted.
  - intros clk rq dr s0 window result. subst result.
    destruct (create_alert (Z.of_nat K) clk rq dr s0) as [[a|] s1] eqn:E; simpl.
    + apply create_alert_accepted in E as (Hroom & _ & Hwindow & _).
      rewrite decide_True by done. split; [by eexists|done].
    + apply create_alert_rejected in E as (Hfull & ->).
      rewrite decide_False by done. done.
Qed.

(** ** The stable descending sort *)

Section SortProperties.
Context {A : Type} (lt : A → A → bool).

Hypothesis lt_asym : ∀ a b, lt a b = true → lt b a = false.
Hypothesis before_trans : ∀ a b c, before lt a b → before lt b c → before lt a c.

Lemma insert_desc_Permutation x l : insert_desc lt x l ≡ₚ x :: l.
Proof.
  induction l as [|y l IH]; simpl; [done|].
  destruct (lt x y); [|done]. by rewrite IH, Permutation_swap.
Qed.

Lemma sort_desc_Permutation l : sort_desc lt l ≡ₚ l.
Proof.
  induction l as [|x l IH]; simpl; [done|].
  by rewrite insert_desc_Permutation, IH.
Qed.

Lemma insert_desc_sorted x l :
  StronglySorted (before lt) l → StronglySorted (before lt) (insert_desc lt x l).
Proof.
  induction 1 as [|y l Hs IH Hy]; simpl.
  - by repeat constructor.
  - destruct (lt x y) eqn:Hxy.
    + constructor; [done|].
      rewrite insert_desc_Permutation. constructor; [|done].
      by apply lt_asym.
    + constructor; [by constructor|].
      constructor; [done|].
      eapply Forall_impl; [exact Hy|]. intros z Hz. by eapply before_trans.
Qed.

Lemma sort_desc_sorted l : StronglySorted (before lt) (sort_desc lt l).
Proof.
  induction l as [|x l IH]; simpl; [constructor|]. by apply insert_desc_sorted.
Qed.

(** Stability: records none of which has a smaller key than another
    keep their order. *)
Lemma insert_desc_stable (P : A → Prop) `{∀ a, Decision (P a)} x l :
  (∀ a b, P a → P b → lt a b = false) →
  filter P (insert_desc lt x l) = filter P (x :: l).
Proof.
  intros Hties. induction l as [|y l IH]; simpl; [done|].
  destruct (lt x y) eqn:Hxy; [|done].
  rewrite (filter_cons P y), IH, (filter_cons P x), (filter_cons P x), (filter_cons P y).
  destruct (decide (P x)) as [Hx|Hx]; [|done].
  destruct (decide (P y)) as [Hy|Hy]; [|done].
  specialize (Hties x y Hx Hy). congruence.
Qed.

Lemma sort_desc_stable (P : A → Prop) `{∀ a, Decision (P a)} l :
  (∀ a b, P a → P b → lt a b = false) →
  filter P (sort_desc lt l) = filter P l.
Proof.
  intros Hties. induction l as [|x l IH]; simpl; [done|].
  rewrite insert_desc_stable by done.
  by rewrite !(filter_cons P x), IH.
Qed.
End SortProperties.

Lemma StronglySorted_weaken {A} (R R' : relation A) (l : list A) :
  (∀ a b, R a b → R' a b) → StronglySorted R l → StronglySorted R' l.
Proof.
  intros Himp. induction 1 as [|a l _ IH Ha]; constructor; [done|].
  eapply Forall_impl; [exact Ha|]. intros b. apply Himp.
Qed.

Lemma string_ltb_false_le (x y : string) : String.ltb x y = false ↔ String.le y x.
Proof.
  unfold String.le, String.ltb, String.leb.
  rewrite (String.compare_antisym x y).
  destruct (String.compare y x); simpl; intuition; try done.
Qed.

Lemma by_timestamp_sorted (l : list Alert) :
  StronglySorted newer
    (sort_desc (λ a b, String.ltb (a_timestamp a) (a_timestamp b)) l).
Proof.
  eapply StronglySorted_weaken;
    [|apply (sort_desc_sorted (λ a b, String.ltb (a_timestamp a) (a_timestamp b)))].
  - intros a b Hab. by apply string_ltb_false_le.
  - intros a b Hab. apply string_ltb_false_le.
    unfold String.ltb in Hab. unfold String.le, String.leb.
    by destruct (String.compare (a_timestamp a) (a_timestamp b)).
  - intros a b c Hab Hbc. unfold before in *.
    apply string_ltb_false_le. apply string_ltb_false_le in Hab, Hbc.
    by etrans.
Qed.

(** ** Queries *)

Lemma filter_everything {A} (P : A → Prop) `{∀ x, Decision (P x)} (l : list A) :
  (∀ x, P x) → filter P l = l.
Proof. intros HP. apply filter_all, Forall_true, HP. Qed.

Lemma get_alerts_filtered severity acknowledged s limit :
  severity ≠ Some "" →
  get_alerts limit severity acknowledged s =
    py_prefix limit
      (sort_desc (λ a b, String.ltb (a_timestamp a) (a_timestamp b))
                 (filter (matches severity acknowledged) (alerts s))).
Proof.
  intros Hsev. unfold get_alerts. cbv zeta. do 2 f_equal.
  destruct severity as [sev|], acknowledged as [b|].
  - assert (truthy sev = true) as ->.
    { unfold truthy. rewrite bool_decide_eq_false_2; [done|congruence]. }
    rewrite list_filter_filter. apply list_filter_iff.
    unfold matches. intros x. tauto.
  - assert (truthy sev = true) as ->.
    { unfold truthy. rewrite bool_decide_eq_false_2; [done|congruence]. }
    apply list_filter_iff. unfold matches. intros x. tauto.
  - apply list_filter_iff. unfold matches. intros x. tauto.
  - symmetry. apply filter_everything. by unfold matches.
Qed.

(** C6. For a limit that is not negative and a severity filter that,
    when given, is not the empty string, [get_alerts] returns the
    first [limit] records of a list that holds exactly the stored
    records meeting both filters and is in descending order of
    ['timestamp']. *)
Theorem C6_get_alerts_filters_sorts_truncates limit severity acknowledged s :
  0 ≤ limit →
  severity ≠ Some "" →
  let result := get_alerts limit severity acknowledged s in
  ∃ full,
    result = take (Z.to_nat limit) full ∧
    full ≡ₚ filter (matches severity acknowledged) (alerts s) ∧
    StronglySorted newer full ∧
    StronglySorted newer result ∧
    Z.of_nat (length result) ≤ limit ∧
    (∀ a, a ∈ result → a ∈ alerts s ∧ matches severity acknowledged a) ∧
    (length (filter (matches severity acknowledged) (alerts s)) ≤ Z.to_nat limit →
       result ≡ₚ filter (matches severity acknowledged) (alerts s))%nat.
Proof.
  intros Hlimit Hsev result. subst result.
  rewrite get_alerts_filtered by done.
  set (kept := filter (matches severity acknowledged) (alerts s)).
  set (full := sort_desc _ kept).
  assert (full ≡ₚ kept) as Hperm by apply sort_desc_Permutation.
  assert (StronglySorted newer full) as Hsorted by apply by_timestamp_sorted.
  assert (py_prefix limit full = take (Z.to_nat limit) full) as ->.
  { unfold py_prefix. destruct (Z.leb_spec 0 limit); [done|lia]. }
  exists full. split_and!; try done.
  - rewrite <- (take_drop (Z.to_nat limit) full) in Hsorted.
    by apply StronglySorted_app_1_l in Hsorted.
  - rewrite length_take. lia.
  - intros a Ha. apply subseteq_take in Ha. rewrite Hperm in Ha.
    apply list_elem_of_filter in Ha. destruct Ha as [Hm Hin]. by split.
  - intros Hfew. rewrite take_ge; [done|].
    by rewrite (Permutation_length Hperm).
Qed.

Lemma find_by_id_None alert_id l :
  find_by_id alert_id l = None ↔ ∀ a, a ∈ l → a_id a ≠ alert_id.
Proof.
  induction l as [|a l IH]; simpl.
  - split; [|done]. intros _ a Ha. by apply elem_of_nil in Ha.
  - case_decide as Hid.
    + split; [done|]. intros Hall. destruct (Hall a); [left|done].
    + rewrite IH. split.
      * intros Hall b Hb. apply elem_of_cons in Hb as [->|Hb]; [done|by apply Hall].
      * intros Hall b Hb. apply Hall. by right.
Qed.

Lemma find_by_id_first alert_id (l1 l2 : list Alert) a :
  (∀ b, b ∈ l1 → a_id b ≠ alert_id) → a_id a = alert_id →
  find_by_id alert_id (l1 ++ a :: l2) = Some a.
Proof.
  intros Hl1 Ha. induction l1 as [|b l1 IH]; simpl.
  - by rewrite decide_True.
  - rewrite decide_False by (apply Hl1; left).
    apply IH. intros c Hc. apply Hl1. by right.
Qed.

(** ** Acknowledgment *)

Lemma acknowledge_first_None alert_id notes now l :
  acknowledge_first alert_id notes now l = None ↔ ∀ a, a ∈ l → a_id a ≠ alert_id.
Proof.
  induction l as [|a l IH]; simpl.
  - split; [|done]. intros _ a Ha. by apply elem_of_nil in Ha.
  - case_decide as Hid.
    + split; [done|]. intros Hall. destruct (Hall a); [left|done].
    + destruct (acknowledge_first alert_id notes now l) as [[u r]|].
      * split; [done|]. intros Hall. exfalso.
        assert (Some (u, r) = None) as Habs; [|done].
        apply IH. intros b Hb. apply Hall. by right.
      * split; [|done]. intros _ b Hb.
        apply elem_of_cons in Hb as [->|Hb]; [done|].
        by apply (proj1 IH).
Qed.

Lemma acknowledge_first_Some alert_id notes now l a' l' :
  acknowledge_first alert_id notes now l = Some (a', l') ↔
  ∃ before_ a after,
    l = before_ ++ a :: after ∧
    (∀ b, b ∈ before_ → a_id b ≠ alert_id) ∧
    a_id a = alert_id ∧
    a' = mark_acknowledged notes now a ∧
    l' = before_ ++ a' :: after.
Proof.
  revert a' l'. induction l as [|x l IH]; intros a' l'; simpl.
  - split; [done|]. intros (bf & a & af & Hl & _). by destruct bf.
  - case_decide as Hid.
    + split.
      * intros [= <- <-]. exists [], x, l. split_and!; try done.
        intros b Hb. by apply elem_of_nil in Hb.
      * intros (bf & a & af & Hl & Hbf & Ha & -> & ->).
        destruct bf as [|b bf]; simplify_eq/=; [done|].
        destruct (Hbf b); [left|done].
    + destruct (acknowledge_first alert_id notes now l) as [[u r]|] eqn:E.
      * split.
        -- intros [= <- <-].
           destruct (proj1 (IH u r) eq_refl) as (bf & a & af & -> & Hbf & Ha & -> & ->).
           exists (x :: bf), a, af. split_and!; try done.
           intros b Hb. apply elem_of_cons in Hb as [->|Hb]; [done|by apply Hbf].
        -- intros (bf & a & af & Hl & Hbf & Ha & -> & ->).
           destruct bf as [|b bf]; simplify_eq/=.
           assert (Some (u, r) = Some (mark_acknowledged notes now a,
                                       bf ++ mark_acknowledged notes now a :: af))
             as [= -> ->]; [|done].
           apply IH. exists bf, a, af. split_and!; try done.
           intros c Hc. apply Hbf. by right.
      * split; [done|].
        intros (bf & a & af & Hl & Hbf & Ha & -> & ->).
        destruct bf as [|b bf]; simplify_eq/=.
        assert (@None (Alert * list Alert) = Some (mark_acknowledged notes now a,
                                       bf ++ mark_acknowledged notes now a :: af))
          as Habs; [|done].
        apply IH. exists bf, a, af. split_and!; try done.
        intros c Hc. apply Hbf. by right.
Qed.

Lemma py_suffix_last {A} (n : nat) (l : list A) (x : A) :
  (0 < n)%nat → last (py_suffix n (l ++ [x])) = Some x.
Proof.
  intros Hn. unfold py_suffix. rewrite length_app. simpl.
  rewrite drop_app_le by lia. by rewrite last_snoc.
Qed.

Lemma history_cap_pos : (0 < history_cap)%nat.
Proof. unfold history_cap. lia. Qed.

Lemma save_alert_last alert f :
  f ≠ Unreadable → last (records (save_alert alert f)) = Some alert.
Proof.
  destruct f as [| |h]; intros Hf; [| done |]; unfold save_alert, records;
    by apply py_suffix_last, history_cap_pos.
Qed.

(** C8. [acknowledge_alert] on an id that no stored record has returns
    [False] and changes nothing; otherwise the first stored record
    with the id gets [acknowledged = True], the given notes and the
    current time as ['acknowledged_at'], the updated record is handed
    to [save_alert] (and is the last entry of the log afterwards unless
    the file cannot be read), and the call returns [True].  The
    function is total: no call raises. *)
Theorem C8_acknowledge_alert now alert_id notes s :
  ((∀ a, a ∈ alerts s → a_id a ≠ alert_id) →
     get_alert_by_id alert_id s = None ∧
     acknowledge_alert now alert_id notes s = (false, s)) ∧
  (∀ earlier a later,
     alerts s = earlier ++ a :: later →
     (∀ b, b ∈ earlier → a_id b ≠ alert_id) →
     a_id a = alert_id →
     let a' := mark_acknowledged notes now a in
     let s' := snd (acknowledge_alert now alert_id notes s) in
     get_alert_by_id alert_id s = Some a ∧
     fst (acknowledge_alert now alert_id notes s) = true ∧
     alerts s' = earlier ++ a' :: later ∧
     a_acknowledged a' = true ∧
     a_notes a' = notes ∧
     a_acknowledged_at a' = Some (isoformat now) ∧
     a_id a' = a_id a ∧ a_timestamp a' = a_timestamp a ∧ a_severity a' = a_severity a ∧
     history_file s' = save_alert a' (history_file s) ∧
     (history_file s ≠ Unreadable → last (records (history_file s')) = Some a') ∧
     alert_counts s' = alert_counts s ∧
     recent_alerts s' = recent_alerts s).
Proof.
  split.
  - intros Hnone. split; [by apply find_by_id_None|].
    unfold acknowledge_alert.
    by rewrite (proj2 (acknowledge_first_None alert_id notes now (alerts s)) Hnone).
  - intros earlier a later Hstore Hearlier Ha a' s'. subst s'.
    unfold acknowledge_alert, get_alert_by_id.
    assert (acknowledge_first alert_id notes now (alerts s)
            = Some (a', earlier ++ a' :: later)) as ->.
    { apply acknowledge_first_Some. by exists earlier, a, later. }
    simpl. split_and!; try done.
    + rewrite Hstore. by apply find_by_id_first.
    + apply save_alert_last.
Qed.

(** C4 (as the code has it). A successful acknowledgment hands the
    updated record to [save_alert], which rewrites the whole log with
    that record appended as a new last entry: the entries already in
    the log, an earlier one with the same id among them, stay as they
    were, and only the oldest are dropped beyond 10000. *)
Theorem C4_acknowledgment_appends_to_log now alert_id notes s s' :
  acknowledge_alert now alert_id notes s = (true, s') →
  ∃ a',
    a' ∈ alerts s' ∧
    a_id a' = alert_id ∧ a_acknowledged a' = true ∧ a_notes a' = notes ∧
    history_file s' = save_alert a' (history_file s) ∧
    match history_file s with
    | Absent => history_file s' = Stored [a']
    | Unreadable => history_file s' = Unreadable
    | Stored h =>
        ∃ dropped kept,
          h = dropped ++ kept ∧
          history_file s' = Stored (kept ++ [a']) ∧
          length dropped = (S (length h) - history_cap)%nat
    end.
Proof.
  unfold acknowledge_alert.
  destruct (acknowledge_first alert_id notes now (alerts s)) as [[a' l']|] eqn:E;
    [|done].
  intros [= <-]. cbn [alerts history_file].
  apply acknowledge_first_Some in E as (earlier & a & later & Hs & _ & Ha & -> & ->).
  exists (mark_acknowledged notes now a). split_and!; try done.
  - apply elem_of_app. right. by left.
  - destruct (history_file s) as [| |h]; unfold save_alert; [| done |].
    + reflexivity.
    + exists (take (S (length h) - history_cap) h), (drop (S (length h) - history_cap) h).
      split_and!.
      * by rewrite take_drop.
      * f_equal. unfold py_suffix. rewrite length_app. cbn [length].
        pose proof history_cap_pos.
        replace (length h + 1 - history_cap)%nat
          with (S (length h) - history_cap)%nat by lia.
        assert (S (length h) - history_cap ≤ length h)%nat as Hk by lia.
        by rewrite drop_app_le.
      * pose proof history_cap_pos. rewrite length_take. lia.
Qed.

(** ** Rejected calls *)

Lemma pop_old_length cutoff (w : list datetime) :
  (length (pop_old cutoff w) ≤ length w)%nat.
Proof.
  destruct (pop_old_split cutoff w) as (old & Hw & _).
  rewrite Hw at 2. rewrite length_app. lia.
Qed.

Lemma pop_old_same_length cutoff (w : list datetime) :
  length (pop_old cutoff w) = length w → pop_old cutoff w = w.
Proof.
  destruct (pop_old_split cutoff w) as (old & Hw & _). intros Hlen.
  rewrite Hw in Hlen at 2. rewrite length_app in Hlen.
  destruct old; [done|simpl in Hlen; lia].
Qed.

Section Rejection.
Variable K : Z.
Variable parse : string -> option datetime.

(** The window of a manager never holds more entries than the
    configured maximum. *)
Lemma reachable_window_bound s :
  reachable K parse s → Z.of_nat (length (recent_alerts s)) ≤ Z.max 0 K.
Proof.
  induction 1 as [f|s clk rq dr _ IH|s now alert_id notes _ IH|s now days s' _ IH Hc].
  - unfold init, load_history. destruct f; simpl; lia.
  - destruct (create_alert K clk rq dr s) as [[a|] s'] eqn:E; simpl.
    + apply create_alert_accepted in E as (Hroom & _ & -> & _).
      unfold deque_append. cbv zeta.
      case_decide; rewrite ?length_drop, length_app; simpl; lia.
    + apply create_alert_rejected in E as (_ & ->). simpl.
      pose proof (pop_old_length (t_check clk - timedelta 0 0 1) (recent_alerts s)).
      lia.
  - unfold acknowledge_alert.
    by destruct (acknowledge_first _ _ _ _) as [[a' l']|].
  - unfold clear_old_alerts in Hc.
    destruct (newer_than _ _ _) as [kept|]; by simplify_eq/=.
Qed.

(** C9. A [create_alert] call that the rate limiter rejects returns
    [None] and leaves the manager as it was: store, per-address
    counts, window and history file. *)
Theorem C9_rejected_call_changes_nothing clk rq dr s :
  reachable K parse s →
  fst (_should_create_alert K (t_check clk) s) = false →
  create_alert K clk rq dr s = (None, s) ∧
  alerts (snd (create_alert K clk rq dr s)) = alerts s ∧
  alert_counts (snd (create_alert K clk rq dr s)) = alert_counts s ∧
  recent_alerts (snd (create_alert K clk rq dr s)) = recent_alerts s ∧
  history_file (snd (create_alert K clk rq dr s)) = history_file s.
Proof.
  intros Hs Hrej.
  assert (create_alert K clk rq dr s = (None, s)) as Hsame; [|by rewrite Hsame].
  pose proof (reachable_window_bound s Hs) as Hbound.
  unfold create_alert, _should_create_alert in *. cbv zeta in *. simpl in Hrej.
  rewrite Hrej. simpl.
  apply bool_decide_eq_false in Hrej.
  pose proof (pop_old_length (t_check clk - timedelta 0 0 1) (recent_alerts s)) as Hle.
  rewrite pop_old_same_length by lia.
  by destruct s.
Qed.
End Rejection.

(** ** Statistics *)

Section Statistics.
Variable parse : string -> option datetime.

Lemma count_since_is_Some since (l : list Alert) :
  Forall (λ a, is_Some (parse (a_timestamp a))) l ↔ is_Some (count_since parse since l).
Proof.
  induction l as [|a l IH]; simpl.
  - split; [by eexists|constructor].
  - rewrite Forall_cons, IH.
    destruct (parse (a_timestamp a)) as [t|]; simpl.
    + destruct (count_since parse since l) as [n|]; simpl.
      * split; [by eexists|]. intros _. split; by eexists.
      * split; [by intros [_ [? ?]]|by intros [? ?]].
    + split; [by intros [[? ?] _]|by intros [? ?]].
Qed.

Lemma acknowledged_partition (l : list Alert) :
  (length (filter (λ a, a_acknowledged a = true) l) +
   length (filter (λ a, a_acknowledged a ≠ true) l) = length l)%nat.
Proof.
  induction l as [|a l IH]; [done|].
  rewrite !filter_cons.
  destruct (decide (a_acknowledged a = true)), (decide (a_acknowledged a ≠ true));
    simpl; try done; lia.
Qed.

(** C7 (what the code returns). On an empty store [get_statistics]
    returns, without raising, the dict of its first branch: zero
    total, empty severity and address tables, zero recent count, and
    no ['acknowledged_count'] and no ['unacknowledged_count'] key. *)
Theorem C7_statistics_of_empty_store now s :
  alerts s = [] →
  get_statistics parse now s = Some (mkStatistics 0 [] [] 0 None None) ∧
  (∀ st, get_statistics parse now s = Some st →
     acknowledged_count st = None ∧ unacknowledged_count st = None).
Proof.
  intros Hempty. unfold get_statistics. rewrite Hempty.
  split; [done|]. by intros st [= <-].
Qed.

(** C10. On a store that is not empty the statistics, whenever they
    are returned, count every stored record once as acknowledged or
    as unacknowledged, and the total is the size of the store; they
    are returned exactly when every stored timestamp parses. *)
Theorem C10_acknowledgment_partition now s :
  alerts s ≠ [] →
  (∀ st, get_statistics parse now s = Some st →
     ∃ acked unacked,
       acknowledged_count st = Some acked ∧
       unacknowledged_count st = Some unacked ∧
       acked = length (filter (λ a, a_acknowledged a = true) (alerts s)) ∧
       unacked = length (filter (λ a, a_acknowledged a ≠ true) (alerts s)) ∧
       (acked + unacked)%nat = total_alerts st ∧
       total_alerts st = length (alerts s)) ∧
  (Forall (λ a, is_Some (parse (a_timestamp a))) (alerts s) ↔
     is_Some (get_statistics parse now s)).
Proof.
  intros Hne. unfold get_statistics.
  destruct (alerts s) as [|a0 l0] eqn:Hstore; [done|]. cbv zeta.
  rewrite (count_since_is_Some (now - timedelta 0 1 0) (a0 :: l0)).
  destruct (count_since parse (now - timedelta 0 1 0) (a0 :: l0)) as [recent|];
    cbn [mbind option_bind].
  - split; [|split; by eexists].
    intros st [= <-]. cbn [acknowledged_count unacknowledged_count total_alerts].
    eexists _, _. split_and!; try done.
    apply acknowledged_partition.
  - split; [done|]. split; by intros [? ?].
Qed.
End Statistics.

(** ** Persist, then reload *)

Lemma py_suffix_py_suffix {A} (n m : nat) (l : list A) :
  (n ≤ m)%nat → py_suffix n (py_suffix m l) = py_suffix n l.
Proof.
  intros Hnm. unfold py_suffix. rewrite length_drop, drop_drop. f_equal. lia.
Qed.

Lemma persist_all_Stored (l : list Alert) (h : list Alert) :
  l ≠ [] → persist_all l (Stored h) = Stored (py_suffix history_cap (h ++ l)).
Proof.
  revert h. induction l as [|a l IH]; intros h Hne; [done|].
  unfold persist_all in *. cbn [foldl]. unfold save_alert at 2.
  destruct l as [|b l]; [done|].
  rewrite IH by done. by rewrite py_suffix_app, <- app_assoc.
Qed.

Lemma persist_all_Absent (l : list Alert) :
  records (persist_all l Absent) = py_suffix history_cap l.
Proof.
  destruct l as [|a l]; [done|].
  unfold persist_all. cbn [foldl]. unfold save_alert at 2.
  destruct l as [|b l]; [done|].
  fold (persist_all (b :: l) (Stored (py_suffix history_cap ([] ++ [a])))).
  rewrite persist_all_Stored by done. unfold records.
  by rewrite py_suffix_app.
Qed.

Lemma init_alerts (f : HistoryFile) :
  alerts (init f) = py_suffix 1000 (records f).
Proof.
  unfold init, load_history. destruct f as [| |h]; cbn [history_file alerts records];
    [done..|].
  rewrite foldl_deque_append_suffix by (apply alerts_maxlen_pos || (simpl; lia)).
  rewrite app_nil_l. apply py_suffix_all. apply py_suffix_le.
Qed.

(** C5 (as the code has it). After [save_alert] on each of [N]
    records in turn, starting without a history file, the file holds
    the last 10000 of them and a new manager loads the last 1000 of
    these, as they were written and in the order they were written
    (oldest first); up to 1000 records come back all. *)
Theorem C5_reload_after_persist (l : list Alert) :
  records (persist_all l Absent) = py_suffix history_cap l ∧
  alerts (init (persist_all l Absent)) = py_suffix 1000 l ∧
  ((length l ≤ history_cap)%nat → records (persist_all l Absent) = l) ∧
  ((length l ≤ 1000)%nat → alerts (init (persist_all l Absent)) = l).
Proof.
  assert (alerts (init (persist_all l Absent)) = py_suffix 1000 l) as Hload.
  { rewrite init_alerts, persist_all_Absent. apply py_suffix_py_suffix.
    unfold history_cap. lia. }
  split_and!.
  - apply persist_all_Absent.
  - done.
  - intros Hle. rewrite persist_all_Absent. by apply py_suffix_all.
  - intros Hle. rewrite Hload. by apply py_suffix_all.
Qed.

(** * The theorems at concrete inputs *)

(** 1001 calls on a fresh manager, all admitted: the store ends with
    the last 1000 created records and without the first. *)
Lemma C1_bounded_store_and_history_witness :
  reachable 10 fromisoformat_canonical (init Absent) ∧
  fst long_run = Some <$> omap id (fst long_run) ∧
  length (omap id (fst long_run)) = 1001%nat ∧
  NoDup (omap id (fst long_run)) ∧
  head (omap id (fst long_run)) = Some first_record ∧
  (length (alerts (snd long_run)) ≤ alerts_maxlen)%nat ∧
  alerts (snd long_run) = tail (omap id (fst long_run)) ∧
  first_record ∉ alerts (snd long_run).
Proof.
  assert (reachable 10 fromisoformat_canonical (init Absent)) as Hreach
    by apply reach_init.
  assert (fst long_run = Some <$> omap id (fst long_run)) as Hall.
  { apply all_accepted_records. vm_compute. reflexivity. }
  assert (length (omap id (fst long_run)) = 1001%nat) as Hlen
    by (vm_compute; reflexivity).
  assert (NoDup (omap id (fst long_run))) as Hnd.
  { apply (NoDup_by_status _ 1001). vm_compute. reflexivity. }
  assert (head (omap id (fst long_run)) = Some first_record) as Hhead
    by (vm_compute; reflexivity).
  pose proof (C1_bounded_store_and_history 10 fromisoformat_canonical
                (paced_calls 10000000 1001) (init Absent) Hreach) as Hrun.
  cbv zeta in Hrun.
  destruct Hrun as (Hbound & _ & Hevict & _).
  destruct (Hevict Hlen Hnd) as [Hstore Hgone].
  exact (conj Hreach (conj Hall (conj Hlen (conj Hnd (conj Hhead
           (conj Hbound (conj Hstore (Hgone first_record Hhead)))))))).
Defined.

(** Four calls 100 ms apart with at most 3 admissions a minute. *)
Lemma C2_rate_limit_within_capacity_witness :
  (3 ≤ recent_maxlen)%nat ∧
  recent_alerts (init Absent) = [] ∧
  length (paced_calls 100000 4) = 4%nat ∧
  Forall (within_second t0) (paced_calls 100000 4) ∧
  Sorted Z.le (recent_alerts stale_window_state) ∧
  length (filter is_Some
            (fst (create_alerts (Z.of_nat 3) (paced_calls 100000 4) (init Absent))))
    = 3%nat ∧
  length (filter (λ r, r = None)
            (fst (create_alerts (Z.of_nat 3) (paced_calls 100000 4) (init Absent))))
    = 1%nat ∧
  recent_alerts (snd (_should_create_alert (Z.of_nat 3) t0 stale_window_state))
    = filter (λ t, t0 - timedelta 0 0 1 ≤ t) (recent_alerts stale_window_state).
Proof.
  assert (3 ≤ recent_maxlen)%nat as HK by (unfold recent_maxlen; lia).
  assert (recent_alerts (init Absent) = []) as Hempty by reflexivity.
  assert (length (paced_calls 100000 4) = 4%nat) as Hlen by reflexivity.
  assert (Forall (within_second t0) (paced_calls 100000 4)) as Hspan by by_computation.
  assert (Sorted Z.le (recent_alerts stale_window_state)) as Hsorted by by_computation.
  destruct (C2_rate_limit_within_capacity 3 t0 (paced_calls 100000 4) (init Absent)
              HK Hempty Hlen Hspan) as (_ & Hsome & Hnone & Hevict & _).
  destruct (Hevict t0 stale_window_state) as (_ & _ & _ & Hall).
  exact (conj HK (conj Hempty (conj Hlen (conj Hspan (conj Hsorted
           (conj Hsome (conj Hnone (Hall Hsorted)))))))).
Defined.

(** C2 as stated fails above the capacity of the window: with at most
    101 admissions a minute, 102 calls at one instant are all
    admitted.  And when the wall clock steps back between two calls,
    a timestamp older than 60 seconds stays in the window behind a
    newer one. *)
Lemma C2_counterexample :
  Forall (within_second t0) (frozen_calls 102) ∧
  recent_alerts (init Absent) = [] ∧
  length (frozen_calls 102) = 102%nat ∧
  length (filter is_Some
            (fst (create_alerts 101 (frozen_calls 102) (init Absent)))) = 102%nat ∧
  length (filter (λ r, r = None)
            (fst (create_alerts 101 (frozen_calls 102) (init Absent)))) = 0%nat ∧
  recent_alerts (snd (create_alerts 5 stepped_back_calls (init Absent)))
    = [t0; t0 - 90000000; t0] ∧
  t0 - 90000000 < t0 - timedelta 0 0 1.
Proof.
  split_and!.
  - by_computation.
  - reflexivity.
  - vm_compute. reflexivity.
  - vm_compute. reflexivity.
  - vm_compute. reflexivity.
  - vm_compute. reflexivity.
  - vm_compute. reflexivity.
Qed.

(** C3 (the code at a failing input). Two calls admitted at one clock
    reading create two different records with one id; both are in the
    store and in the history file. *)
Theorem C3_same_instant_same_id :
  ∃ a1 a2,
    fst (create_alerts 10 (frozen_calls 2) (init Absent)) = [Some a1; Some a2] ∧
    a1 ≠ a2 ∧
    a_id a1 = "ALERT-20240305070809000042" ∧
    a_id a2 = "ALERT-20240305070809000042" ∧
    alerts (snd (create_alerts 10 (frozen_calls 2) (init Absent))) = [a1; a2] ∧
    records (history_file (snd (create_alerts 10 (frozen_calls 2) (init Absent))))
      = [a1; a2].
Proof.
  eexists _, _. split_and!.
  - vm_compute. reflexivity.
  - intros Heq. by apply (f_equal a_status) in Heq.
  - reflexivity.
  - reflexivity.
  - vm_compute. reflexivity.
  - vm_compute. reflexivity.
Qed.

(** Acknowledging the one stored alert. *)
Lemma C4_acknowledgment_appends_to_log_witness :
  acknowledge_alert (t0 + 5000000) "ALERT-20240305070809000043" "seen" one_alert_state
    = (true, snd (acknowledge_alert (t0 + 5000000) "ALERT-20240305070809000043"
                                    "seen" one_alert_state)) ∧
  ∃ a',
    a_id a' = "ALERT-20240305070809000043" ∧
    a_acknowledged a' = true ∧
    history_file (snd (acknowledge_alert (t0 + 5000000) "ALERT-20240305070809000043"
                                         "seen" one_alert_state))
      = save_alert a' (history_file one_alert_state).
Proof.
  assert (acknowledge_alert (t0 + 5000000) "ALERT-20240305070809000043" "seen"
                            one_alert_state
          = (true, snd (acknowledge_alert (t0 + 5000000) "ALERT-20240305070809000043"
                                          "seen" one_alert_state))) as Hack
    by (vm_compute; reflexivity).
  split; [exact Hack|].
  destruct (C4_acknowledgment_appends_to_log _ _ _ _ _ Hack)
    as (a' & _ & Hid & Hacked & _ & Hfile & _).
  exists a'. exact (conj Hid (conj Hacked Hfile)).
Defined.

(** C4 as stated fails: after the acknowledgment the log holds the
    record twice under one id, the earlier entry unchanged. *)
Lemma C4_counterexample :
  records (history_file one_alert_state) = [first_record] ∧
  records (history_file
             (snd (acknowledge_alert (t0 + 5000000) "ALERT-20240305070809000043"
                                     "seen" one_alert_state)))
    = [first_record; mark_acknowledged "seen" (t0 + 5000000) first_record] ∧
  length (filter (λ a, a_id a = "ALERT-20240305070809000043")
            (records (history_file
               (snd (acknowledge_alert (t0 + 5000000) "ALERT-20240305070809000043"
                                       "seen" one_alert_state))))) = 2%nat.
Proof. split_and!; vm_compute; reflexivity. Qed.

(** Two records persisted, then a new manager. *)
Lemma C5_reload_after_persist_witness :
  (length [first_record; second_record] ≤ history_cap)%nat ∧
  (length [first_record; second_record] ≤ 1000)%nat ∧
  records (persist_all [first_record; second_record] Absent)
    = [first_record; second_record] ∧
  alerts (init (persist_all [first_record; second_record] Absent))
    = [first_record; second_record].
Proof.
  assert (length [first_record; second_record] ≤ history_cap)%nat as Hcap
    by (unfold history_cap; simpl; lia).
  assert (length [first_record; second_record] ≤ 1000)%nat as Hmem by (simpl; lia).
  destruct (C5_reload_after_persist [first_record; second_record])
    as (_ & _ & Hfile & Hload).
  exact (conj Hcap (conj Hmem (conj (Hfile Hcap) (Hload Hmem)))).
Defined.

(** C5 as stated fails: the reload is oldest first, not most recent
    first, and never returns more than 1000 records. *)
Lemma C5_counterexample :
  alerts (init (persist_all [first_record; second_record] Absent))
    = [first_record; second_record] ∧
  alerts (init (persist_all [first_record; second_record] Absent))
    ≠ reverse [first_record; second_record] ∧
  (length (replicate 1001 first_record) ≤ history_cap)%nat ∧
  length (alerts (init (persist_all (replicate 1001 first_record) Absent))) = 1000%nat.
Proof.
  split_and!.
  - vm_compute. reflexivity.
  - vm_compute. intros Heq. discriminate Heq.
  - unfold history_cap. rewrite length_replicate. lia.
  - vm_compute. reflexivity.
Qed.

(** The newest unacknowledged high-severity alert of four. *)
Lemma C6_get_alerts_filters_sorts_truncates_witness :
  0 ≤ 1 ∧
  Some "high" ≠ Some "" ∧
  ∃ full,
    get_alerts 1 (Some "high") (Some false) mixed_state = take (Z.to_nat 1) full ∧
    full ≡ₚ filter (matches (Some "high") (Some false)) (alerts mixed_state) ∧
    StronglySorted newer full ∧
    Z.of_nat (length (get_alerts 1 (Some "high") (Some false) mixed_state)) ≤ 1.
Proof.
  assert (0 ≤ 1) as Hlimit by lia.
  assert (Some "high" ≠ Some "") as Hsev by discriminate.
  destruct (C6_get_alerts_filters_sorts_truncates 1 (Some "high") (Some false)
              mixed_state Hlimit Hsev)
    as (full & Hresult & Hperm & Hsorted & _ & Hlen & _).
  split; [exact Hlimit|]. split; [exact Hsev|].
  exists full. exact (conj Hresult (conj Hperm (conj Hsorted Hlen))).
Defined.

(** A new manager without a history file. *)
Lemma C7_statistics_of_empty_store_witness :
  alerts (init Absent) = [] ∧
  get_statistics fromisoformat_canonical t0 (init Absent)
    = Some (mkStatistics 0 [] [] 0 None None).
Proof.
  assert (alerts (init Absent) = []) as Hempty by reflexivity.
  split; [exact Hempty|].
  exact (proj1 (C7_statistics_of_empty_store fromisoformat_canonical t0
                  (init Absent) Hempty)).
Defined.

(** An unknown id, then the id of the second of two stored alerts. *)
Lemma C8_acknowledge_alert_witness :
  (∀ a, a ∈ alerts two_alert_state → a_id a ≠ "ALERT-0") ∧
  acknowledge_alert t0 "ALERT-0" "seen" two_alert_state = (false, two_alert_state) ∧
  alerts two_alert_state = [first_record] ++ second_record :: [] ∧
  (∀ b, b ∈ [first_record] → a_id b ≠ "ALERT-20240305070810000043") ∧
  a_id second_record = "ALERT-20240305070810000043" ∧
  fst (acknowledge_alert (t0 + 5000000) "ALERT-20240305070810000043" "seen"
                         two_alert_state) = true ∧
  alerts (snd (acknowledge_alert (t0 + 5000000) "ALERT-20240305070810000043" "seen"
                                 two_alert_state))
    = [first_record] ++ mark_acknowledged "seen" (t0 + 5000000) second_record :: [].
Proof.
  assert (∀ a, a ∈ alerts two_alert_state → a_id a ≠ "ALERT-0") as Hnone.
  { apply Forall_forall. by_computation. }
  assert (alerts two_alert_state = [first_record] ++ second_record :: []) as Hstore
    by (vm_compute; reflexivity).
  assert (∀ b, b ∈ [first_record] → a_id b ≠ "ALERT-20240305070810000043") as Hearlier.
  { apply Forall_forall. by_computation. }
  assert (a_id second_record = "ALERT-20240305070810000043") as Hid by reflexivity.
  destruct (C8_acknowledge_alert t0 "ALERT-0" "seen" two_alert_state)
    as [Hunknown _].
  destruct (C8_acknowledge_alert (t0 + 5000000) "ALERT-20240305070810000043" "seen"
              two_alert_state) as [_ Hknown].
  destruct (Hknown [first_record] second_record [] Hstore Hearlier Hid)
    as (_ & Htrue & Hupdated & _).
  exact (conj Hnone (conj (proj2 (Hunknown Hnone)) (conj Hstore (conj Hearlier
           (conj Hid (conj Htrue Hupdated)))))).
Defined.

(** With at most one admission a minute, a second call in the same
    second is rejected. *)
Lemma C9_rejected_call_changes_nothing_witness :
  reachable 1 fromisoformat_canonical one_alert_state ∧
  fst (_should_create_alert 1 (t_check (mkClock t0 t0 t0 t0)) one_alert_state) = false ∧
  create_alert 1 (mkClock t0 t0 t0 t0) (demo_request 7) (demo_detection "low")
               one_alert_state = (None, one_alert_state).
Proof.
  assert (reachable 1 fromisoformat_canonical one_alert_state) as Hreach
    by (apply reach_create, reach_init).
  assert (fst (_should_create_alert 1 (t_check (mkClock t0 t0 t0 t0)) one_alert_state)
          = false) as Hrejected by (vm_compute; reflexivity).
  split; [exact Hreach|]. split; [exact Hrejected|].
  exact (proj1 (C9_rejected_call_changes_nothing 1 fromisoformat_canonical
                  (mkClock t0 t0 t0 t0) (demo_request 7) (demo_detection "low")
                  one_alert_state Hreach Hrejected)).
Defined.

(** Four stored alerts, one of them acknowledged. *)
Lemma C10_acknowledgment_partition_witness :
  alerts (snd (acknowledge_alert (t0 + 5000000) "ALERT-20240305070810000043" "seen"
                                 mixed_state)) ≠ [] ∧
  get_statistics fromisoformat_canonical (t0 + 6000000)
      (snd (acknowledge_alert (t0 + 5000000) "ALERT-20240305070810000043" "seen"
                              mixed_state))
    = Some (mkStatistics 4 [("low", 1); ("medium", 1); ("high", 2)]%nat
                         [("10.0.0.7", 4%nat)] 4 (Some 1%nat) (Some 3%nat)) ∧
  ∃ acked unacked,
    Some acked = Some 1%nat ∧ Some unacked = Some 3%nat ∧ (acked + unacked = 4)%nat.
Proof.
  assert (alerts (snd (acknowledge_alert (t0 + 5000000) "ALERT-20240305070810000043"
                                         "seen" mixed_state)) ≠ []) as Hne
    by (vm_compute; discriminate).
  assert (get_statistics fromisoformat_canonical (t0 + 6000000)
            (snd (acknowledge_alert (t0 + 5000000) "ALERT-20240305070810000043" "seen"
                                    mixed_state))
          = Some (mkStatistics 4 [("low", 1); ("medium", 1); ("high", 2)]%nat
                               [("10.0.0.7", 4%nat)] 4 (Some 1%nat) (Some 3%nat)))
    as Hstats by (vm_compute; reflexivity).
  destruct (C10_acknowledgment_partition fromisoformat_canonical (t0 + 6000000) _ Hne)
    as [Hpart _].
  destruct (Hpart _ Hstats) as (acked & unacked & Ha & Hu & _ & _ & Hsum & _).
  split; [exact Hne|]. split; [exact Hstats|].
  exists acked, unacked. symmetry in Ha, Hu. exact (conj Ha (conj Hu Hsum)).
Defined.

(** * Further properties *)

(** ** Insertion-ordered counters *)

Lemma dict_get_incr k k' d :
  dict_get k (dict_incr k' d) =
    if decide (k' = k) then Some (default 0 (dict_get k d) + 1)%nat else dict_get k d.
Proof.
  induction d as [|[k0 n] d IH]; simpl.
  - by repeat case_decide.
  - destruct (decide (k0 = k')) as [->|Hne]; simpl.
    + repeat case_decide; simplify_eq; done.
    + rewrite IH. repeat case_decide; simplify_eq; done.
Qed.

Lemma dict_incr_keys k d :
  (dict_incr k d).*1 = if decide (k ∈ d.*1) then d.*1 else d.*1 ++ [k].
Proof.
  induction d as [|[k0 n] d IH]; [done|].
  cbn [dict_incr]. rewrite (fmap_cons fst (k0, n) d). cbn [fst].
  destruct (decide (k0 = k)) as [->|Hne].
  - rewrite fmap_cons. cbn [fst]. rewrite decide_True; [done|]. left.
  - rewrite fmap_cons, IH. cbn [fst]. destruct (decide (k ∈ d.*1)) as [Hin|Hnin].
    + rewrite decide_True; [done|]. by right.
    + rewrite decide_False; [done|]. intros [?|?]%elem_of_cons; congruence.
Qed.

Lemma dict_incr_NoDup k d : NoDup d.*1 → NoDup (dict_incr k d).*1.
Proof.
  intros Hnd. rewrite dict_incr_keys. case_decide; [done|].
  apply NoDup_app. split_and!; [done| |apply NoDup_singleton].
  intros x Hx ->%list_elem_of_singleton. done.
Qed.

Lemma dict_incr_sum k d :
  sum_list (dict_incr k d).*2 = S (sum_list d.*2).
Proof.
  induction d as [|[k0 n] d IH]; [done|].
  assert (∀ x l, sum_list (x :: l) = (x + sum_list l)%nat) as Hcons by done.
  cbn [dict_incr]. case_decide; rewrite !fmap_cons, !Hcons; cbn [snd]; [lia|].
  rewrite IH. lia.
Qed.

Lemma dict_incr_keys_prefix k d : d.*1 `prefix_of` (dict_incr k d).*1.
Proof.
  rewrite dict_incr_keys. case_decide; [done|]. by apply prefix_app_r.
Qed.

Lemma dict_get_elem k n d : NoDup d.*1 → (k, n) ∈ d → dict_get k d = Some n.
Proof.
  induction d as [|[k0 n0] d IH]; simpl.
  - intros _ Hin. by apply elem_of_nil in Hin.
  - intros [Hk0 Hnd]%NoDup_cons [Heq|Hin]%elem_of_cons.
    + simplify_eq. by rewrite decide_True.
    + rewrite decide_False; [by apply IH|].
      intros ->. apply Hk0. apply list_elem_of_fmap. by exists (k, n).
Qed.

Section Tally.
Context {A : Type} (key : A → string).

Lemma tally_get k d0 l :
  default 0%nat (dict_get k (tally key d0 l)) =
    (default 0 (dict_get k d0) + length (filter (λ a, key a = k) l))%nat.
Proof.
  unfold tally. revert d0. induction l as [|a l IH]; intros d0; simpl; [lia|].
  rewrite IH, dict_get_incr, filter_cons.
  destruct (decide (key a = k)); simpl; lia.
Qed.

Lemma tally_keys k d0 l :
  k ∈ (tally key d0 l).*1 ↔ k ∈ d0.*1 ∨ k ∈ key <$> l.
Proof.
  unfold tally. revert d0. induction l as [|a l IH]; intros d0; simpl.
  - split; [by left|]. intros [?|Hin]; [done|]. by apply elem_of_nil in Hin.
  - rewrite IH, dict_incr_keys. case_decide as Hin.
    + rewrite elem_of_cons. split; [tauto|].
      intros [?|[->|?]]; auto.
    + rewrite elem_of_app, list_elem_of_singleton, elem_of_cons. tauto.
Qed.

Lemma tally_NoDup d0 l : NoDup d0.*1 → NoDup (tally key d0 l).*1.
Proof.
  unfold tally. revert d0. induction l as [|a l IH]; intros d0 Hnd; simpl; [done|].
  by apply IH, dict_incr_NoDup.
Qed.

Lemma tally_sum d0 l :
  sum_list (tally key d0 l).*2 = (sum_list d0.*2 + length l)%nat.
Proof.
  unfold tally. revert d0. induction l as [|a l IH]; intros d0; simpl; [lia|].
  rewrite IH, dict_incr_sum. lia.
Qed.

Lemma tally_keys_prefix d0 l : d0.*1 `prefix_of` (tally key d0 l).*1.
Proof.
  unfold tally. revert d0. induction l as [|a l IH]; intros d0; simpl; [done|].
  etrans; [apply (dict_incr_keys_prefix (key a))|apply IH].
Qed.

Lemma count_pos_elem k l :
  (0 < length (filter (λ a, key a = k) l))%nat ↔ k ∈ key <$> l.
Proof.
  induction l as [|a l IH]; simpl.
  - split; [lia|]. intros Hin. by apply elem_of_nil in Hin.
  - rewrite filter_cons, elem_of_cons. destruct (decide (key a = k)); simpl.
    + split; [by left|lia].
    + rewrite IH. split; [by right|]. by intros [?|?]; [congruence|].
Qed.

(** Every entry of a tally that starts empty is the number of items
    with that key, and is positive. *)
Lemma tally_entry k n l :
  (k, n) ∈ tally key [] l → n = length (filter (λ a, key a = k) l) ∧ (0 < n)%nat.
Proof.
  intros Hin.
  assert (dict_get k (tally key [] l) = Some n) as Hget.
  { apply dict_get_elem; [|done]. apply tally_NoDup. constructor. }
  pose proof (tally_get k [] l) as Hcount. rewrite Hget in Hcount. simpl in Hcount.
  split; [done|]. rewrite Hcount. apply count_pos_elem.
  assert (k ∈ (tally key [] l).*1) as Hk.
  { apply list_elem_of_fmap. by exists (k, n). }
  apply tally_keys in Hk as [Hk|Hk]; [|done]. by apply elem_of_nil in Hk.
Qed.
End Tally.

(** ** What the statistics count *)

Lemma more_sorted (d : list (string * nat)) :
  StronglySorted more
    (sort_desc (λ p q : string * nat, Nat.ltb (snd p) (snd q)) d).
Proof.
  eapply StronglySorted_weaken;
    [|apply (sort_desc_sorted (λ p q : string * nat, Nat.ltb (snd p) (snd q)))].
  - intros p q Hpq. unfold before in Hpq. apply Nat.ltb_ge in Hpq. done.
  - intros p q Hpq. apply Nat.ltb_lt in Hpq. apply Nat.ltb_ge. lia.
  - intros p q r Hpq Hqr. unfold before in *.
    apply Nat.ltb_ge in Hpq, Hqr. apply Nat.ltb_ge. lia.
Qed.

Lemma NoDup_take {A} (n : nat) (l : list A) : NoDup l → NoDup (take n l).
Proof.
  intros Hnd. rewrite <- (take_drop n l) in Hnd. by apply NoDup_app in Hnd as [? _].
Qed.

Section StatisticsContents.
Variable parse : string -> option datetime.

Lemma count_since_count since (l : list Alert) n :
  count_since parse since l = Some n →
  n = length (filter (parsed_after parse since) l).
Proof.
  revert n. induction l as [|a l IH]; intros n; simpl; [by intros [= <-]|].
  destruct (parse (a_timestamp a)) as [t|] eqn:Ht; simpl; [|done].
  destruct (count_since parse since l) as [m|]; simpl; [|done].
  intros [= <-]. specialize (IH m eq_refl).
  destruct (Z.ltb_spec since t).
  - rewrite filter_cons_True by (unfold parsed_after; by rewrite Ht).
    simpl. by f_equal.
  - rewrite filter_cons_False by (unfold parsed_after; rewrite Ht; lia). done.
Qed.

Lemma get_statistics_nonempty now s st :
  alerts s ≠ [] →
  get_statistics parse now s = Some st →
  total_alerts st = length (alerts s) ∧
  by_severity st = tally a_severity [("low", 0%nat); ("medium", 0%nat); ("high", 0%nat)]
                         (alerts s) ∧
  by_ip st = take 10 (sort_desc (λ p q : string * nat, Nat.ltb (snd p) (snd q))
                                (tally a_ip [] (alerts s))) ∧
  count_since parse (now - timedelta 0 1 0) (alerts s) = Some (recent_count st).
Proof.
  intros Hne. unfold get_statistics.
  destruct (alerts s) as [|a0 l0]; [done|]. cbv zeta.
  destruct (count_since parse (now - timedelta 0 1 0) (a0 :: l0)) as [recent|];
    cbn [mbind option_bind]; [|done].
  by intros [= <-].
Qed.

(** X1. The severity table of a non-empty store: for every severity the
    number of stored alerts that have it, with the rows for low,
    medium and high first and always there, no severity twice, and
    the rows adding up to the total. *)
Theorem by_severity_counts now s st :
  alerts s ≠ [] →
  get_statistics parse now s = Some st →
  (∀ sev, default 0%nat (dict_get sev (by_severity st))
          = length (filter (λ a, a_severity a = sev) (alerts s))) ∧
  ["low"; "medium"; "high"] `prefix_of` (by_severity st).*1 ∧
  (∀ sev, sev ∈ (by_severity st).*1 ↔
          sev ∈ ["low"; "medium"; "high"] ∨ sev ∈ a_severity <$> alerts s) ∧
  NoDup (by_severity st).*1 ∧
  sum_list (by_severity st).*2 = total_alerts st.
Proof.
  intros Hne Hst.
  destruct (get_statistics_nonempty now s st Hne Hst) as (Htotal & -> & _).
  split_and!.
  - intros sev. rewrite tally_get. simpl. by repeat case_decide.
  - apply (tally_keys_prefix a_severity [("low", 0%nat); ("medium", 0%nat); ("high", 0%nat)]).
  - intros sev. by rewrite tally_keys.
  - apply tally_NoDup. change (NoDup ["low"; "medium"; "high"]). by_computation.
  - by rewrite tally_sum, Htotal.
Qed.

(** X2. The address table of a non-empty store: at most 10 rows, no
    address twice, largest count first; each row is the number of
    stored alerts from its address; and an address with alerts that
    has no row has no more alerts than any address that has one. *)
Theorem by_ip_top_ten now s st :
  alerts s ≠ [] →
  get_statistics parse now s = Some st →
  let count ip := length (filter (λ a, a_ip a = ip) (alerts s)) in
  (length (by_ip st) ≤ 10)%nat ∧
  NoDup (by_ip st).*1 ∧
  StronglySorted more (by_ip st) ∧
  (∀ ip n, (ip, n) ∈ by_ip st → n = count ip ∧ (0 < n)%nat) ∧
  (∀ ip, (0 < count ip)%nat →
     ip ∈ (by_ip st).*1 ∨
     (length (by_ip st) = 10%nat ∧ ∀ p, p ∈ by_ip st → (count ip ≤ snd p)%nat)).
Proof.
  intros Hne Hst count.
  destruct (get_statistics_nonempty now s st Hne Hst) as (_ & _ & -> & _).
  set (table := tally a_ip [] (alerts s)).
  set (full := sort_desc _ table).
  assert (full ≡ₚ table) as Hperm by apply sort_desc_Permutation.
  assert (StronglySorted more full) as Hsorted by apply more_sorted.
  assert (NoDup table.*1) as Hnd by (apply tally_NoDup; constructor).
  split_and!.
  - rewrite length_take. lia.
  - rewrite fmap_take. apply NoDup_take. by rewrite Hperm.
  - rewrite <- (take_drop 10 full) in Hsorted.
    by apply StronglySorted_app_1_l in Hsorted.
  - intros ip n Hin. apply subseteq_take in Hin. rewrite Hperm in Hin.
    by apply tally_entry in Hin.
  - intros ip Hpos.
    assert (ip ∈ table.*1) as Hkey.
    { apply tally_keys. right. by apply count_pos_elem. }
    rewrite <- Hperm, <- (take_drop 10 full), fmap_app, elem_of_app in Hkey.
    destruct Hkey as [Hkey|Hkey]; [by left|right].
    apply list_elem_of_fmap in Hkey as ([ip' n] & -> & Hin).
    assert ((ip', n) ∈ table) as Hentry.
    { rewrite <- Hperm, <- (take_drop 10 full). apply elem_of_app. by right. }
    apply tally_entry in Hentry as [-> _].
    split.
    + rewrite length_take. apply Nat.min_l.
      destruct (decide (10 ≤ length full)%nat) as [Hlen|Hlen]; [done|].
      rewrite drop_ge in Hin by lia. by apply elem_of_nil in Hin.
    + intros p Hp.
      rewrite <- (take_drop 10 full) in Hsorted.
      apply (StronglySorted_app_1_elem_of _ _ _ p (ip', count ip')) in Hsorted;
        done.
Qed.

(** X3. The recent count is the number of stored alerts whose timestamp
    parses to an instant in the last hour (strictly after
    [now - 1h]); it never exceeds the total. *)
Theorem recent_count_last_hour now s st :
  alerts s ≠ [] →
  get_statistics parse now s = Some st →
  recent_count st
    = length (filter (parsed_after parse (now - timedelta 0 1 0)) (alerts s)) ∧
  (recent_count st ≤ total_alerts st)%nat.
Proof.
  intros Hne Hst.
  destruct (get_statistics_nonempty now s st Hne Hst) as (Htotal & _ & _ & Hrecent).
  apply count_since_count in Hrecent. split; [done|].
  rewrite Hrecent, Htotal. apply length_filter.
Qed.
End StatisticsContents.

(** ** Runs, the log and the counters *)

Section Runs.
Variable K : Z.

Lemma create_alerts_cons clk rq dr calls s :
  create_alerts K ((clk, rq, dr) :: calls) s =
    ((create_alert K clk rq dr s).1 :: (create_alerts K calls (create_alert K clk rq dr s).2).1,
     (create_alerts K calls (create_alert K clk rq dr s).2).2).
Proof.
  cbn [create_alerts]. destruct (create_alert K clk rq dr s) as [r s1]. cbn [fst snd].
  destruct (create_alerts K calls s1) as [rs s2]. reflexivity.
Qed.

Lemma create_alert_with_file f clk rq dr s :
  create_alert K clk rq dr (with_file f s) =
    ((create_alert K clk rq dr s).1,
     with_file (match (create_alert K clk rq dr s).1 with
                | Some a => save_alert a f
                | None => f
                end) (create_alert K clk rq dr s).2).
Proof.
  unfold create_alert, _should_create_alert, with_file. cbv zeta. simpl.
  by case_bool_decide.
Qed.

Lemma create_alerts_with_file f calls s :
  create_alerts K calls (with_file f s) =
    (fst (create_alerts K calls s),
     with_file (persist_all (omap id (fst (create_alerts K calls s))) f)
               (snd (create_alerts K calls s))).
Proof.
  revert f s. induction calls as [|[[clk rq] dr] calls IH]; intros f s; [done|].
  rewrite !create_alerts_cons, create_alert_with_file. cbn [fst snd].
  rewrite IH. cbn [fst snd].
  destruct (create_alert K clk rq dr s) as [[a|] s1]; reflexivity.
Qed.

(** X4. The history file takes no part in a run: the results, the store,
    the counters and the window are the same over any file, and the
    file after the run is the old one with [save_alert] applied to
    the created records in order. *)
Theorem run_independent_of_history_file f calls s :
  let run := create_alerts K calls s in
  let run' := create_alerts K calls (with_file f s) in
  fst run' = fst run ∧
  alerts (snd run') = alerts (snd run) ∧
  alert_counts (snd run') = alert_counts (snd run) ∧
  recent_alerts (snd run') = recent_alerts (snd run) ∧
  history_file (snd run') = persist_all (omap id (fst run)) f.
Proof.
  cbv zeta. rewrite create_alerts_with_file. cbn [fst snd].
  split_and!; reflexivity.
Qed.

Lemma with_file_same s : with_file (history_file s) s = s.
Proof. by destruct s. Qed.

Lemma run_history_file calls s :
  history_file (snd (create_alerts K calls s))
    = persist_all (omap id (fst (create_alerts K calls s))) (history_file s).
Proof.
  rewrite <- (with_file_same s) at 1. by rewrite create_alerts_with_file.
Qed.

Lemma persist_all_Unreadable l : persist_all l Unreadable = Unreadable.
Proof. induction l as [|a l IH]; [done|]. exact IH. Qed.

Lemma persist_all_readable f (l : list Alert) :
  f ≠ Unreadable → l ≠ [] →
  persist_all l f = Stored (py_suffix history_cap (records f ++ l)).
Proof.
  intros Hfile Hl. destruct f as [| |h]; [|done|].
  - destruct l as [|a l]; [done|].
    unfold persist_all. cbn [foldl]. unfold save_alert at 2.
    destruct l as [|b l]; [reflexivity|].
    fold (persist_all (b :: l) (Stored (py_suffix history_cap ([] ++ [a])))).
    rewrite persist_all_Stored by done. cbn [records].
    by rewrite py_suffix_app.
  - by rewrite persist_all_Stored.
Qed.

(** X5. The log after a run over a file that can be read (or is not
    there yet): the last 10000 of the old entries followed by the
    created records, in creation order. *)
Theorem log_after_run calls s :
  history_file s ≠ Unreadable →
  omap id (fst (create_alerts K calls s)) ≠ [] →
  history_file (snd (create_alerts K calls s))
    = Stored (py_suffix history_cap
                (records (history_file s) ++ omap id (fst (create_alerts K calls s)))).
Proof.
  intros Hfile Hrecs. rewrite run_history_file.
  by apply persist_all_readable.
Qed.

(** X6. A file that cannot be read is never repaired: it is still
    unreadable after any run, whatever the run stored in memory, and
    a manager started on it afterwards has an empty store. *)
Theorem unreadable_history_stays_unreadable calls s :
  history_file s = Unreadable →
  history_file (snd (create_alerts K calls s)) = Unreadable ∧
  alerts (init (history_file (snd (create_alerts K calls s)))) = [].
Proof.
  intros Hfile. rewrite run_history_file, Hfile, persist_all_Unreadable. done.
Qed.

Lemma init_history_file f : history_file (init f) = f.
Proof. unfold init, load_history. by destruct f. Qed.

Lemma store_after_run f calls :
  alerts (snd (create_alerts K calls (init f)))
    = py_suffix alerts_maxlen
        (records f ++ omap id (fst (create_alerts K calls (init f)))).
Proof.
  rewrite (create_alerts_alerts K calls (init f)).
  rewrite foldl_deque_append_suffix;
    [|apply alerts_maxlen_pos|rewrite init_alerts; apply py_suffix_le].
  rewrite init_alerts. apply py_suffix_app.
Qed.

Lemma init_after_run f calls :
  f ≠ Unreadable →
  alerts (init (history_file (snd (create_alerts K calls (init f)))))
    = alerts (snd (create_alerts K calls (init f))).
Proof.
  intros Hfile. rewrite store_after_run, run_history_file, init_history_file, init_alerts.
  destruct (omap id (create_alerts K calls (init f)).1) as [|a recs] eqn:Hrecs.
  - cbn [persist_all foldl]. by rewrite app_nil_r.
  - rewrite persist_all_readable by done. cbn [records].
    apply py_suffix_py_suffix. unfold history_cap, alerts_maxlen. lia.
Qed.

(** X7. A manager started on a readable (or absent) file holds, after a
    run of [create_alert] calls, the last 1000 of the file records
    followed by the created records; a restart brings back exactly
    that store, with the counters empty again. *)
Theorem restart_restores_store f calls :
  f ≠ Unreadable →
  let s := snd (create_alerts K calls (init f)) in
  alerts s = py_suffix alerts_maxlen
               (records f ++ omap id (fst (create_alerts K calls (init f)))) ∧
  alerts (init (history_file s)) = alerts s ∧
  alert_counts (init (history_file s)) = ∅.
Proof.
  intros Hfile s. split_and!.
  - apply store_after_run.
  - by apply init_after_run.
  - unfold init, load_history. by destruct (history_file s).
Qed.

(** X8. The per-address counter after a run: what it was plus the number
    of records the run created for the address.  It starts empty in
    [__init__], so it counts the alerts of this process only, not the
    ones loaded from the history file, and no eviction lowers it. *)
Theorem alert_counts_after_run calls s ip :
  let run := create_alerts K calls s in
  default 0%nat (alert_counts (snd run) !! ip)
    = (default 0 (alert_counts s !! ip)
       + length (filter (λ a, a_ip a = ip) (omap id (fst run))))%nat ∧
  (∀ f, alert_counts (init f) = ∅) ∧
  (∀ f, default 0%nat (alert_counts (snd (create_alerts K calls (init f))) !! ip)
        = length (filter (λ a, a_ip a = ip)
                         (omap id (fst (create_alerts K calls (init f)))))).
Proof.
  assert (∀ s0, default 0%nat (alert_counts (snd (create_alerts K calls s0)) !! ip)
    = (default 0 (alert_counts s0 !! ip)
       + length (filter (λ a, a_ip a = ip) (omap id (fst (create_alerts K calls s0)))))%nat)
    as Hrun.
  { induction calls as [|[[clk rq] dr] calls IH]; intros s0.
    - simpl. lia.
    - rewrite create_alerts_cons. cbn [fst snd]. rewrite IH.
      destruct (create_alert K clk rq dr s0) as [[a|] s1] eqn:E; cbn [fst snd omap].
      + apply (create_alert_accepted K) in E as (_ & _ & _ & -> & _).
        change (list_omap _ _ id (Some a :: ?rs)) with (a :: omap id rs).
        rewrite filter_cons, lookup_insert.
        destruct (decide (a_ip a = ip)) as [<-|]; simpl; lia.
      + apply (create_alert_rejected K) in E as (_ & ->). simpl. done. }
  assert (∀ f, alert_counts (init f) = ∅) as Hinit.
  { intros f. unfold init, load_history. by destruct f. }
  split_and!; [apply Hrun|done|].
  intros f. rewrite Hrun, Hinit, lookup_empty. simpl. done.
Qed.
End Runs.

(** ** The window *)

Section Window.
Variable K : Z.
Variable parse : string -> option datetime.

Lemma deque_append_window (w : list datetime) t :
  (length w ≤ recent_maxlen)%nat →
  (length (deque_append recent_maxlen w t) ≤ recent_maxlen)%nat.
Proof. apply deque_append_length. Qed.

(** X9. The window of a manager never holds more than 100 timestamps,
    and never more than the configured maximum. *)
Theorem window_never_exceeds_capacity s :
  reachable K parse s →
  (length (recent_alerts s) ≤ recent_maxlen)%nat ∧
  Z.of_nat (length (recent_alerts s)) ≤ Z.max 0 K.
Proof.
  intros Hs. split; [|by eapply reachable_window_bound].
  induction Hs as [f|s clk rq dr _ IH|s now alert_id notes _ IH|s now days s' _ IH Hc].
  - unfold init, load_history. destruct f; simpl; lia.
  - destruct (create_alert K clk rq dr s) as [[a|] s'] eqn:E; simpl.
    + apply create_alert_accepted in E as (_ & _ & -> & _).
      apply deque_append_window.
      etrans; [apply pop_old_length|done].
    + apply create_alert_rejected in E as (_ & ->). simpl.
      etrans; [apply pop_old_length|done].
  - unfold acknowledge_alert.
    by destruct (acknowledge_first _ _ _ _) as [[a' l']|].
  - unfold clear_old_alerts in Hc.
    destruct (newer_than _ _ _) as [kept|]; by simplify_eq/=.
Qed.
End Window.

(** ** Admission under a clock that does not go back *)

Section Admission.
Variable K : Z.
Hypothesis K_fits : K ≤ Z.of_nat recent_maxlen.

Lemma admission_step s rec hi clk rq dr :
  window_tracks K s rec hi →
  hi ≤ t_check clk → t_check clk ≤ t_window clk →
  let cutoff := t_check clk - timedelta 0 0 1 in
  let result := create_alert K clk rq dr s in
  (is_Some (fst result) ↔ Z.of_nat (length (filter (λ t, cutoff ≤ t) rec)) < K) ∧
  window_tracks K (snd result) (rec ++ recorded [(clk, rq, dr)] [fst result])
                (t_window clk).
Proof.
  intros (old & Hrec & Hold & Hhi & Hsorted & Hlen) Hcheck Hwindow cutoff result.
  destruct (pop_old_split cutoff (recent_alerts s)) as (ev & Hw & Hev).
  assert (pop_old cutoff (recent_alerts s) = filter (λ t, cutoff ≤ t) (recent_alerts s))
    as Hpop by (apply pop_old_sorted; by apply StronglySorted_Sorted).
  assert (filter (λ t, cutoff ≤ t) rec = pop_old cutoff (recent_alerts s)) as Hcount.
  { rewrite Hrec, filter_app, Hpop, filter_none; [reflexivity|].
    eapply Forall_impl; [exact Hold|]. subst cutoff. simpl. lia. }
  assert (Forall (λ t, t < t_window clk - timedelta 0 0 1) (old ++ ev)) as Hold'.
  { apply Forall_app. split.
    - eapply Forall_impl; [exact Hold|]. simpl. lia.
    - eapply Forall_impl; [exact Hev|]. subst cutoff. simpl. lia. }
  rewrite Hw in Hhi, Hsorted.
  apply Forall_app in Hhi as [_ Hhi].
  apply StronglySorted_app_1_r in Hsorted.
  assert (length (pop_old cutoff (recent_alerts s)) ≤ length (recent_alerts s))%nat
    as Hshorter by apply pop_old_length.
  subst result.
  destruct (create_alert K clk rq dr s) as [[a|] s'] eqn:E; cbn [fst snd recorded].
  - apply create_alert_accepted in E as (Hroom & _ & Hwin & _).
    fold cutoff in Hroom, Hwin.
    assert (recent_alerts s' = pop_old cutoff (recent_alerts s) ++ [t_window clk]) as Hs'.
    { rewrite Hwin. unfold deque_append. cbv zeta.
      rewrite decide_False; [done|]. rewrite length_app. simpl. lia. }
    split; [rewrite Hcount; split; [done|by eexists]|].
    exists (old ++ ev). rewrite Hs'. split_and!.
    + rewrite Hrec, Hw at 1. by rewrite <- !app_assoc.
    + done.
    + apply Forall_app. split; [|by repeat constructor].
      eapply Forall_impl; [exact Hhi|]. simpl. lia.
    + apply StronglySorted_app. split_and!; [|done|by repeat constructor].
      intros x1 x2 Hx1 ->%list_elem_of_singleton.
      rewrite Forall_forall in Hhi. specialize (Hhi x1 Hx1). simpl in Hhi. lia.
    + rewrite length_app. simpl. lia.
  - apply create_alert_rejected in E as (Hfull & ->).
    fold cutoff in Hfull. cbn [recent_alerts].
    split.
    { rewrite Hcount. split; [by intros [? ?]|done]. }
    exists (old ++ ev). split_and!.
    + rewrite app_nil_r, Hrec, Hw at 1. by rewrite <- !app_assoc.
    + done.
    + eapply Forall_impl; [exact Hhi|]. simpl. lia.
    + done.
    + cbn [recent_alerts]. fold cutoff. lia.
Qed.

Lemma recorded_cons c calls r rs :
  recorded (c :: calls) (r :: rs) = recorded [c] [r] ++ recorded calls rs.
Proof. by destruct r. Qed.

Lemma admission_run calls s rec hi :
  window_tracks K s rec hi →
  StronglySorted Z.le (hi :: timeline calls) →
  ∃ hi',
    window_tracks K (snd (create_alerts K calls s))
                  (rec ++ recorded calls (fst (create_alerts K calls s))) hi' ∧
    (hi' = hi ∨ hi' ∈ timeline calls).
Proof.
  revert s rec hi. induction calls as [|[[clk rq] dr] calls IH]; intros s rec hi Hinv Hclock.
  - exists hi. simpl. rewrite app_nil_r. auto.
  - change (timeline (((clk, rq), dr) :: calls))
      with (t_check clk :: t_window clk :: timeline calls) in *.
    apply StronglySorted_inv in Hclock as [Hclock Hhi].
    apply Forall_cons in Hhi as [Hhi _].
    apply StronglySorted_inv in Hclock as [Hclock Hcheck].
    apply Forall_cons in Hcheck as [Hcheck _].
    destruct (admission_step s rec hi clk rq dr Hinv Hhi Hcheck) as [_ Hinv'].
    cbv zeta in Hinv'.
    destruct (IH _ _ _ Hinv' Hclock) as (hi' & Htracks & Hwhere).
    exists hi'. rewrite create_alerts_cons. cbn [fst snd]. split.
    + rewrite <- app_assoc in Htracks.
      by rewrite recorded_cons.
    + destruct Hwhere as [->|Hin]; right; [right; left|by do 2 right].
Qed.

(** X10. With the window empty at the start, at most 100 admissions a
    minute configured and clock readings that never go back, a call
    is admitted exactly when fewer than [K] of the calls admitted
    before it were recorded in the 60 seconds up to its check. *)
Theorem accepted_iff_room_in_last_minute calls clk rq dr s :
  recent_alerts s = [] →
  Sorted Z.le (timeline (calls ++ [(clk, rq, dr)])) →
  let run := create_alerts K calls s in
  is_Some (fst (create_alert K clk rq dr (snd run))) ↔
  Z.of_nat (length (filter (λ t, t_check clk - timedelta 0 0 1 ≤ t)
                           (recorded calls (fst run)))) < K.
Proof.
  intros Hempty Hclock run.
  apply Sorted_StronglySorted in Hclock; [|intros ???; lia].
  unfold timeline in Hclock. rewrite bind_app in Hclock.
  fold (timeline calls) in Hclock.
  change ([(clk, rq, dr)] ≫= _) with [t_check clk; t_window clk] in Hclock.
  set (hi := default (t_check clk) (head (timeline calls))).
  assert (window_tracks K s [] hi) as Hinv.
  { exists []. rewrite Hempty. split_and!; try done; try constructor. simpl. lia. }
  assert (StronglySorted Z.le (hi :: timeline calls)) as Hrun.
  { constructor; [by apply StronglySorted_app_1_l in Hclock|].
    subst hi. destruct (timeline calls) as [|t ts] eqn:Ht; [constructor|]. simpl.
    constructor; [lia|].
    apply StronglySorted_app_1_l, StronglySorted_inv in Hclock as [_ Hall]. done. }
  destruct (admission_run calls s [] hi Hinv Hrun) as (hi' & Htracks & Hwhere).
  assert (hi' ≤ t_check clk) as Hhi'.
  { destruct Hwhere as [->|Hin].
    - subst hi. destruct (timeline calls) as [|t ts] eqn:Ht; simpl; [lia|].
      apply (StronglySorted_app_1_elem_of _ _ _ t (t_check clk)) in Hclock;
        [done|left|left].
    - apply (StronglySorted_app_1_elem_of _ _ _ hi' (t_check clk)) in Hclock;
        [done|done|left]. }
  assert (t_check clk ≤ t_window clk) as Hwindow.
  { apply StronglySorted_app_1_r, StronglySorted_inv in Hclock as [_ Hall].
    by apply Forall_cons in Hall as [? _]. }
  destruct (admission_step _ _ _ clk rq dr Htracks Hhi' Hwindow) as [Hiff _].
  exact Hiff.
Qed.
End Admission.

(** ** Lookups *)

Lemma deque_append_snoc {A} (n : nat) (l : list A) (x : A) :
  (0 < n)%nat → ∃ l', deque_append n l x = l' ++ [x] ∧ l' ⊆ l.
Proof.
  intros Hn. unfold deque_append. cbv zeta. case_decide as Hfull.
  - destruct l as [|y l].
    + simpl in Hfull. lia.
    + exists l. split; [done|]. intros z Hz. by right.
  - by exists l.
Qed.

Lemma find_by_id_Some alert_id l a :
  find_by_id alert_id l = Some a → a ∈ l ∧ a_id a = alert_id.
Proof.
  induction l as [|b l IH]; simpl; [done|].
  case_decide as Hid.
  - intros [= <-]. split; [left|done].
  - intros Hfind. destruct (IH Hfind). split; [by right|done].
Qed.

Lemma find_by_id_app_Some alert_id l1 l2 a :
  find_by_id alert_id l1 = Some a → find_by_id alert_id (l1 ++ l2) = Some a.
Proof.
  induction l1 as [|b l1 IH]; simpl; [done|]. by case_decide.
Qed.

Lemma find_by_id_other alert_id l1 l2 a a' :
  a_id a ≠ alert_id → a_id a' ≠ alert_id →
  find_by_id alert_id (l1 ++ a' :: l2) = find_by_id alert_id (l1 ++ a :: l2).
Proof.
  intros Ha Ha'. induction l1 as [|b l1 IH]; simpl.
  - by rewrite !decide_False.
  - by rewrite IH.
Qed.

Section Lookups.
Variable K : Z.

(** X11. A record is found under its id right after it is created, unless
    the store already holds a record with the same id; a lookup of
    the new id always finds some record with that id. *)
Theorem lookup_after_create clk rq dr s a s' :
  create_alert K clk rq dr s = (Some a, s') →
  (∃ b, get_alert_by_id (a_id a) s' = Some b ∧ a_id b = a_id a ∧ b ∈ alerts s') ∧
  ((∀ b, b ∈ alerts s → a_id b ≠ a_id a) → get_alert_by_id (a_id a) s' = Some a).
Proof.
  intros Hcreate. apply create_alert_accepted in Hcreate as (_ & Hstore & _).
  destruct (deque_append_snoc alerts_maxlen (alerts s) a alerts_maxlen_pos)
    as (l' & Happ & Hsub).
  unfold get_alert_by_id. rewrite Hstore, Happ. split.
  - destruct (find_by_id (a_id a) (l' ++ [a])) as [b|] eqn:Hfind.
    + apply find_by_id_Some in Hfind as [Hin Hid]. by exists b.
    + exfalso. rewrite find_by_id_None in Hfind.
      apply (Hfind a); [|done]. apply elem_of_app. right. left.
  - intros Hfresh. apply find_by_id_first; [|done].
    intros b Hb. apply Hfresh, Hsub, Hb.
Qed.
End Lookups.

Lemma acknowledge_alert_true now alert_id notes s :
  fst (acknowledge_alert now alert_id notes s) = true →
  ∃ earlier a later,
    alerts s = earlier ++ a :: later ∧
    (∀ b, b ∈ earlier → a_id b ≠ alert_id) ∧
    a_id a = alert_id ∧
    snd (acknowledge_alert now alert_id notes s)
      = mkState (earlier ++ mark_acknowledged notes now a :: later)
                (alert_counts s) (recent_alerts s)
                (save_alert (mark_acknowledged notes now a) (history_file s)).
Proof.
  unfold acknowledge_alert.
  destruct (acknowledge_first alert_id notes now (alerts s)) as [[a' l']|] eqn:E;
    [|done].
  intros _. cbn [snd].
  apply acknowledge_first_Some in E as (earlier & a & later & Hs & Hearlier & Ha & -> & ->).
  by exists earlier, a, later.
Qed.

(** X12. After a successful acknowledgment the id leads to the updated
    record; lookups of other ids, and the order and ids of the stored
    records, are as before. *)
Theorem lookup_after_acknowledge now alert_id notes s :
  fst (acknowledge_alert now alert_id notes s) = true →
  let s' := snd (acknowledge_alert now alert_id notes s) in
  (∃ a, get_alert_by_id alert_id s = Some a ∧
        get_alert_by_id alert_id s' = Some (mark_acknowledged notes now a)) ∧
  (∀ other, other ≠ alert_id → get_alert_by_id other s' = get_alert_by_id other s) ∧
  a_id <$> alerts s' = a_id <$> alerts s.
Proof.
  intros Hack s'. subst s'.
  destruct (acknowledge_alert_true now alert_id notes s Hack)
    as (earlier & a & later & Hs & Hearlier & Ha & ->).
  unfold get_alert_by_id. cbn [alerts]. rewrite Hs.
  split_and!.
  - exists a. split; by apply find_by_id_first.
  - intros other Hother. apply find_by_id_other; simpl; congruence.
  - by rewrite !fmap_app, !fmap_cons.
Qed.

(** X13. Acknowledging a record twice leaves the store as the second
    acknowledgment alone would: acknowledged, with the later notes
    and time.  Both updates go to the log, the later one last. *)
Theorem acknowledge_twice t1 t2 alert_id notes1 notes2 s :
  fst (acknowledge_alert t1 alert_id notes1 s) = true →
  let s1 := snd (acknowledge_alert t1 alert_id notes1 s) in
  let s2 := snd (acknowledge_alert t2 alert_id notes2 s1) in
  fst (acknowledge_alert t2 alert_id notes2 s1) = true ∧
  alerts s2 = alerts (snd (acknowledge_alert t2 alert_id notes2 s)) ∧
  ∃ a, get_alert_by_id alert_id s = Some a ∧
       get_alert_by_id alert_id s2 = Some (mark_acknowledged notes2 t2 a) ∧
       history_file s2 = save_alert (mark_acknowledged notes2 t2 a)
                           (save_alert (mark_acknowledged notes1 t1 a) (history_file s)).
Proof.
  unfold acknowledge_alert at 1 2 3.
  destruct (acknowledge_first alert_id notes1 t1 (alerts s)) as [[a1 l1]|] eqn:E1;
    [|done].
  intros _. cbn [snd].
  apply acknowledge_first_Some in E1
    as (earlier & a & later & Hstore & Hearlier & Ha & -> & ->).
  assert (∀ notes now a0, a_id a0 = alert_id →
            acknowledge_first alert_id notes now (earlier ++ a0 :: later)
            = Some (mark_acknowledged notes now a0,
                    earlier ++ mark_acknowledged notes now a0 :: later)) as Hack.
  { intros notes now a0 Ha0. apply acknowledge_first_Some.
    by exists earlier, a0, later. }
  unfold acknowledge_alert, get_alert_by_id. cbn [alerts history_file alert_counts recent_alerts].
  rewrite Hstore, (Hack notes2 t2 a Ha), (Hack notes2 t2 (mark_acknowledged notes1 t1 a) Ha).
  cbn [fst snd alerts history_file].
  split_and!; [done|done|].
  exists a. split_and!.
  - by apply find_by_id_first.
  - by apply find_by_id_first.
  - done.
Qed.

(** X14. With a log that holds just the store (fewer than 1000 records),
    an acknowledgment does not survive a restart as far as lookups
    go: the new manager loads the old entry and, after it, the
    acknowledged copy, and the id leads to the old entry. *)
Theorem acknowledgment_shadowed_after_restart now alert_id notes s :
  history_file s ≠ Unreadable →
  alerts s = records (history_file s) →
  (length (alerts s) < alerts_maxlen)%nat →
  fst (acknowledge_alert now alert_id notes s) = true →
  let s' := snd (acknowledge_alert now alert_id notes s) in
  ∃ a,
    get_alert_by_id alert_id s = Some a ∧
    get_alert_by_id alert_id s' = Some (mark_acknowledged notes now a) ∧
    alerts (init (history_file s')) = alerts s ++ [mark_acknowledged notes now a] ∧
    get_alert_by_id alert_id (init (history_file s')) = Some a.
Proof.
  intros Hfile Hsync Hroom Hack s'. subst s'.
  destruct (acknowledge_alert_true now alert_id notes s Hack)
    as (earlier & a & later & Hs & Hearlier & Ha & ->).
  set (s' := mkState _ _ _ _).
  assert (get_alert_by_id alert_id s = Some a) as Hold.
  { unfold get_alert_by_id. rewrite Hs. by apply find_by_id_first. }
  exists a. split; [done|]. split.
  { unfold get_alert_by_id. cbn [alerts s']. by apply find_by_id_first. }
  assert (history_file s' = save_alert (mark_acknowledged notes now a) (history_file s))
    as Hlog by done.
  assert (alerts (init (history_file s')) = alerts s ++ [mark_acknowledged notes now a])
    as Hload.
  { rewrite init_alerts, Hlog, Hsync.
    assert (records (save_alert (mark_acknowledged notes now a) (history_file s))
            = records (history_file s) ++ [mark_acknowledged notes now a]) as ->.
    { destruct (history_file s) as [| |h]; [|done|]; unfold save_alert, records;
        apply py_suffix_all; rewrite Hsync in Hroom; cbn [records] in Hroom;
        rewrite ?length_app; simpl; unfold history_cap, alerts_maxlen in *; lia. }
    apply py_suffix_all. rewrite length_app, <- Hsync. simpl.
    unfold alerts_maxlen in Hroom. lia. }
  split; [done|].
  unfold get_alert_by_id in *. rewrite Hload. by apply find_by_id_app_Some.
Qed.

(** ** Purging *)

Section Purge.
Variable K : Z.
Variable parse : string -> option datetime.





(** X16. The purge is not persisted: a manager started after a run and a
    purge loads the store as it was before the purge. *)
Theorem purge_undone_by_restart f calls now days s' :
  f ≠ Unreadable →
  clear_old_alerts parse now days (snd (create_alerts K calls (init f))) = Some s' →
  alerts (init (history_file s')) = alerts (snd (create_alerts K calls (init f))).
Proof.
  intros Hfile Hclear.
  assert (history_file s' = history_file (snd (create_alerts K calls (init f)))) as ->.
  { unfold clear_old_alerts in Hclear.
    destruct (newer_than _ _ _) as [kept|]; by simplify_eq/=. }
  by apply init_after_run.
Qed.
End Purge.

(** ** Start *)

(** X17. A new manager holds the last 1000 records of the history file in
    file order (none if the file is absent or cannot be read), leaves
    the file as it is, and starts with empty counters and an empty
    window: whatever was admitted before the restart, its first call
    is admitted as soon as the configured maximum is positive. *)
Theorem fresh_manager f K clk rq dr :
  alerts (init f) = py_suffix 1000 (records f) ∧
  history_file (init f) = f ∧
  alert_counts (init f) = ∅ ∧
  recent_alerts (init f) = [] ∧
  (0 < K ↔ is_Some (fst (create_alert K clk rq dr (init f)))).
Proof.
  split; [apply init_alerts|].
  assert (history_file (init f) = f ∧ alert_counts (init f) = ∅ ∧
          recent_alerts (init f) = []) as (Hfile & Hcounts & Hwindow).
  { unfold init, load_history. by destruct f. }
  split_and!; try done.
  unfold create_alert, _should_create_alert. cbv zeta. rewrite Hwindow. simpl.
  case_bool_decide as HK; simpl in *.
  - split; [intros _; by eexists|done].
  - split; [lia|by intros [? ?]].
Qed.

(** ** More on queries *)

Lemma take_prefix_take {A} (n m : nat) (l : list A) :
  (n ≤ m)%nat → take n l `prefix_of` take m l.
Proof.
  intros Hnm. replace n with (n `min` m)%nat by lia.
  rewrite <- take_take. apply prefix_take.
Qed.

Lemma filter_take_prefix {A} (P : A → Prop) `{∀ x, Decision (P x)} (n : nat) (l : list A) :
  filter P (take n l) `prefix_of` filter P l.
Proof.
  rewrite <- (take_drop n l) at 2. rewrite filter_app. by apply prefix_app_r.
Qed.

Lemma string_ltb_irrefl (x : string) : String.ltb x x = false.
Proof. apply string_ltb_false_le. done. Qed.

(** X18. Raising the limit only appends to the result: for limits that
    are not negative a smaller limit gives a prefix of what a larger
    one gives.  Records with the same timestamp come in the order in
    which the store holds them. *)
Theorem get_alerts_limit_and_ties limit1 limit2 severity acknowledged s ts :
  0 ≤ limit1 → limit1 ≤ limit2 →
  get_alerts limit1 severity acknowledged s
    `prefix_of` get_alerts limit2 severity acknowledged s ∧
  (severity ≠ Some "" →
   filter (λ a, a_timestamp a = ts) (get_alerts limit1 severity acknowledged s)
     `prefix_of`
   filter (λ a, a_timestamp a = ts) (filter (matches severity acknowledged) (alerts s))).
Proof.
  intros H1 H2. split.
  - unfold get_alerts, py_prefix. cbv zeta.
    destruct (Z.leb_spec 0 limit1); [|lia]. destruct (Z.leb_spec 0 limit2); [|lia].
    apply take_prefix_take. lia.
  - intros Hsev. rewrite get_alerts_filtered by done. unfold py_prefix.
    destruct (Z.leb_spec 0 limit1); [|lia].
    etrans; [apply filter_take_prefix|].
    rewrite sort_desc_stable; [done|].
    intros a b -> ->. apply string_ltb_irrefl.
Qed.

(** X19. A negative limit does not raise: it drops that many records from
    the end of the sorted result, the oldest ones, and gives nothing
    once it reaches the number of matching records. *)
Theorem get_alerts_negative_limit limit severity acknowledged s :
  limit < 0 →
  let full := get_alerts (Z.of_nat (length (alerts s))) severity acknowledged s in
  get_alerts limit severity acknowledged s
    = take (length full - Z.to_nat (- limit)) full ∧
  (Z.of_nat (length full) ≤ - limit → get_alerts limit severity acknowledged s = []).
Proof.
  intros Hneg full.
  assert (∃ sorted, (length sorted ≤ length (alerts s))%nat ∧
            (∀ lim, get_alerts lim severity acknowledged s = py_prefix lim sorted))
    as (sorted & Hlen & Hget).
  { eexists. split; [|intros lim; reflexivity].
    rewrite (Permutation_length (sort_desc_Permutation _ _)).
    destruct severity as [sev|], acknowledged as [b|]; try destruct (truthy sev);
      repeat (etrans; [apply length_filter|]); done. }
  assert (full = sorted) as Hfull.
  { subst full. rewrite Hget. unfold py_prefix.
    destruct (Z.leb_spec 0 (Z.of_nat (length (alerts s)))); [|lia].
    apply take_ge. lia. }
  rewrite Hfull, Hget. unfold py_prefix. destruct (Z.leb_spec 0 limit); [lia|].
  split; [done|]. intros Hall.
  replace (length sorted - Z.to_nat (- limit))%nat with 0%nat by lia. done.
Qed.

(** ** The calendar *)

Lemma check_pos_spec (p : Z → bool) n lo :
  check_pos p n lo = true → ∀ d, lo ≤ d < lo + Zpos n → p d = true.
Proof.
  revert lo. induction n as [n IH|n IH|]; intros lo; simpl.
  - rewrite !andb_true_iff. intros [[Hlo H1] H2] d Hd.
    destruct (decide (d = lo)) as [->|]; [done|].
    destruct (decide (d < lo + 1 + Z.pos n)).
    + apply (IH _ H1). lia.
    + apply (IH _ H2). lia.
  - rewrite andb_true_iff. intros [H1 H2] d Hd.
    destruct (decide (d < lo + Z.pos n)).
    + apply (IH _ H1). lia.
    + apply (IH _ H2). lia.
  - intros Hlo d Hd. by replace d with lo by lia.
Qed.

Lemma civil_of_days_steps d0 :
  civil_of_days d0 =
    let z := d0 + 306 in
    let era := z / 146097 in
    let doe := z - era * 146097 in
    let yoe := yoe_of doe in
    let '(mp, d) := month_day (doe - year_start yoe) in
    let m := if mp <? 10 then mp + 3 else mp - 9 in
    (if m <=? 2 then yoe + era * 400 + 1 else yoe + era * 400, m, d).
Proof. reflexivity. Qed.

Lemma year_ok_era y : 0 ≤ y < 400 → year_ok y = true.
Proof.
  intros Hy. apply (check_pos_spec year_ok 400 0); [|lia].
  vm_compute. reflexivity.
Qed.

Lemma month_day_ok_year doy : 0 ≤ doy < 366 → month_day_ok doy = true.
Proof.
  intros Hdoy. apply (check_pos_spec month_day_ok 366 0); [|lia].
  vm_compute. reflexivity.
Qed.

(** The year formula never goes back from one day of the era to the
    next. *)
Lemma yoe_of_next doe : 0 ≤ doe < 146096 → yoe_of doe ≤ yoe_of (doe + 1).
Proof.
  intros Hdoe. unfold yoe_of. apply Z.div_le_mono; [lia|].
  destruct (decide (doe + 1 = 146096)) as [Heq|Hne].
  - replace doe with 146095 by lia. vm_compute. discriminate.
  - rewrite (Z.div_small doe 146096), (Z.div_small (doe + 1) 146096) by lia.
    pose proof (Z_div_mod_eq_full doe 1460). pose proof (Z.mod_pos_bound doe 1460 eq_refl).
    pose proof (Z_div_mod_eq_full (doe + 1) 1460).
    pose proof (Z.mod_pos_bound (doe + 1) 1460 eq_refl).
    pose proof (Z.div_le_mono doe (doe + 1) 36524 eq_refl ltac:(lia)).
    lia.
Qed.

Lemma yoe_of_mono a b : 0 ≤ a → a ≤ b → b < 146097 → yoe_of a ≤ yoe_of b.
Proof.
  intros Ha Hab Hb. replace b with (a + Z.of_nat (Z.to_nat (b - a))) in * by lia.
  induction (Z.to_nat (b - a)) as [|n IH].
  - by rewrite Z.add_0_r.
  - etrans; [apply IH; lia|].
    replace (a + Z.of_nat (S n)) with (a + Z.of_nat n + 1) by lia.
    apply yoe_of_next. lia.
Qed.

Lemma year_ok_inv y :
  0 ≤ y < 400 →
  yoe_of (year_start y) = y ∧ yoe_of (year_start (y + 1) - 1) = y ∧
  year_start (y + 1) - year_start y ≤ 366.
Proof.
  intros Hy. pose proof (year_ok_era y Hy) as Hok. unfold year_ok in Hok.
  rewrite !andb_true_iff, !Z.eqb_eq, Z.leb_le in Hok. tauto.
Qed.

Lemma year_start_bounds y :
  0 ≤ y → 365 * y ≤ year_start y ≤ 365 * y + y / 4.
Proof.
  intros Hy. unfold year_start.
  pose proof (Z_div_mod_eq_full y 4). pose proof (Z.mod_pos_bound y 4 eq_refl).
  pose proof (Z_div_mod_eq_full y 100). pose proof (Z.mod_pos_bound y 100 eq_refl).
  lia.
Qed.

(** A day of the era lies in the year the formula gives, which has
    at most 366 days. *)
Lemma yoe_of_year doe :
  0 ≤ doe < 146097 →
  0 ≤ yoe_of doe < 400 ∧ 0 ≤ doe - year_start (yoe_of doe) < 366.
Proof.
  intros Hdoe.
  assert (0 ≤ yoe_of doe < 400) as Hy.
  { pose proof (yoe_of_mono 0 doe ltac:(lia) ltac:(lia) ltac:(lia)) as Hlo.
    pose proof (yoe_of_mono doe 146096 ltac:(lia) ltac:(lia) ltac:(lia)) as Hhi.
    change (yoe_of 0) with 0 in Hlo. change (yoe_of 146096) with 399 in Hhi. lia. }
  split; [done|]. remember (yoe_of doe) as y eqn:Ey.
  destruct (year_ok_inv y Hy) as (_ & _ & Hlen).
  assert (year_start y ≤ doe) as Hfrom.
  { destruct (decide (year_start y ≤ doe)) as [|Hlt]; [done|]. exfalso.
    assert (y ≠ 0) as Hy0.
    { intros Hz. rewrite Hz in Hlt. change (year_start 0) with 0 in Hlt. lia. }
    destruct (year_ok_inv (y - 1) ltac:(lia)) as (_ & Hlast & _).
    replace (y - 1 + 1) with y in Hlast by lia.
    pose proof (year_start_bounds y ltac:(lia)) as Hb.
    assert (y / 4 ≤ 99) as Hq by (apply Z.lt_succ_r, Z.div_lt_upper_bound; lia).
    pose proof (yoe_of_mono doe (year_start y - 1) ltac:(lia) ltac:(lia) ltac:(lia))
      as Hmono.
    lia. }
  split; [lia|].
  destruct (decide (y = 399)) as [Hlast|Hne].
  - rewrite Hlast. change (year_start 399) with 145731. lia.
  - assert (doe < year_start (y + 1)) as Hto; [|lia].
    destruct (decide (doe < year_start (y + 1))) as [|Hge]; [done|]. exfalso.
    destruct (year_ok_inv (y + 1) ltac:(lia)) as (Hfirst & _ & _).
    pose proof (year_start_bounds (y + 1) ltac:(lia)) as Hb.
    pose proof (yoe_of_mono (year_start (y + 1)) doe ltac:(lia) ltac:(lia) ltac:(lia))
      as Hmono.
    lia.
Qed.

Lemma month_day_ok_inv doy :
  0 ≤ doy < 366 →
  let '(mp, d) := month_day doy in
  let '(mp', d') := month_day (doy + 1) in
  0 ≤ mp ≤ 11 ∧ 1 ≤ d ≤ 31 ∧ (doy ≠ 365 → mp * 32 + d < mp' * 32 + d').
Proof.
  intros Hdoy. pose proof (month_day_ok_year doy Hdoy) as Hok.
  unfold month_day_ok in Hok.
  destruct (month_day doy) as [mp d], (month_day (doy + 1)) as [mp' d'].
  rewrite !andb_true_iff, orb_true_iff, !Z.leb_le, Z.eqb_eq, Z.ltb_lt in Hok. lia.
Qed.

Lemma civil_of_days_era d k :
  civil_of_days (d + 146097 * k)
  = let '(y, m, dd) := civil_of_days d in (y + 400 * k, m, dd).
Proof.
  unfold civil_of_days. cbv zeta.
  replace (d + 146097 * k + 306) with (d + 306 + k * 146097) by lia.
  rewrite Z.div_add by lia.
  set (era := (d + 306) / 146097).
  replace (d + 306 + k * 146097 - (era + k) * 146097) with (d + 306 - era * 146097)
    by lia.
  set (doe := d + 306 - era * 146097).
  set (yoe := (doe - doe / 1460 + doe / 36524 - doe / 146096) / 365).
  set (doy := doe - (365 * yoe + yoe / 4 - yoe / 100)).
  set (mp := (5 * doy + 2) / 153).
  destruct ((if mp <? 10 then mp + 3 else mp - 9) <=? 2); f_equal; f_equal; lia.
Qed.

(** Every day number is a day of the first era, some eras away. *)
Lemma day_of_era d :
  ∃ doe k, d = doe - 306 + 146097 * k ∧ 0 ≤ doe < 146097.
Proof.
  exists ((d + 306) mod 146097), ((d + 306) / 146097).
  pose proof (Z_div_mod_eq_full (d + 306) 146097).
  pose proof (Z.mod_pos_bound (d + 306) 146097 eq_refl). lia.
Qed.

(** The date of a day of the first era, by year and month counted
    from March of year 0. *)
Lemma civil_of_doe doe :
  0 ≤ doe < 146097 →
  let '(y, m, d) := civil_of_days (doe - 306) in
  let '(mp, d') := month_day (doe - year_start (yoe_of doe)) in
  d = d' ∧ 12 * y + m = 12 * yoe_of doe + mp + 3 ∧ 1 ≤ m ≤ 12 ∧ 1 ≤ d ≤ 31 ∧
  0 ≤ mp ≤ 11.
Proof.
  intros Hdoe. rewrite civil_of_days_steps. cbv zeta.
  replace (doe - 306 + 306) with doe by lia.
  rewrite (Z.div_small doe 146097) by lia.
  replace (doe - 0 * 146097) with doe by lia.
  destruct (yoe_of_year doe Hdoe) as [Hy Hdoy].
  pose proof (month_day_ok_inv _ Hdoy) as Hmd.
  destruct (month_day (doe - year_start (yoe_of doe))) as [mp d].
  destruct (month_day (doe - year_start (yoe_of doe) + 1)) as [mp' d'].
  destruct Hmd as (Hmp & Hd & _).
  destruct (Z.ltb_spec mp 10); [destruct (Z.leb_spec (mp + 3) 2)
                               |destruct (Z.leb_spec (mp - 9) 2)]; lia.
Qed.

Lemma civil_of_days_ranges d :
  let '(_, m, dd) := civil_of_days d in 1 ≤ m ≤ 12 ∧ 1 ≤ dd ≤ 31.
Proof.
  destruct (day_of_era d) as (doe & k & -> & Hdoe).
  pose proof (civil_of_doe doe Hdoe) as Hc.
  rewrite civil_of_days_era.
  destruct (civil_of_days (doe - 306)) as [[y m] dd].
  destruct (month_day (doe - year_start (yoe_of doe))) as [mp d']. lia.
Qed.

Lemma date_key_next d :
  date_key (civil_of_days d) < date_key (civil_of_days (d + 1)).
Proof.
  destruct (day_of_era d) as (doe & k & -> & Hdoe).
  destruct (decide (doe = 146096)) as [->|Hlast].
  - replace (146096 - 306 + 146097 * k + 1) with (-306 + 146097 * (k + 1)) by lia.
    rewrite !civil_of_days_era.
    change (civil_of_days (146096 - 306)) with (400, 2, 29).
    change (civil_of_days (-306)) with (0, 3, 1).
    unfold date_key. lia.
  - replace (doe - 306 + 146097 * k + 1) with (doe + 1 - 306 + 146097 * k) by lia.
    rewrite !civil_of_days_era.
    pose proof (civil_of_doe doe Hdoe) as H1.
    pose proof (civil_of_doe (doe + 1) ltac:(lia)) as H2.
    pose proof (yoe_of_next doe ltac:(lia)) as Hyoe.
    destruct (yoe_of_year doe Hdoe) as [_ Hdoy].
    pose proof (month_day_ok_inv _ Hdoy) as Hmd.
    destruct (civil_of_days (doe - 306)) as [[y1 m1] d1].
    destruct (civil_of_days (doe + 1 - 306)) as [[y2 m2] d2].
    unfold date_key.
    destruct (decide (yoe_of (doe + 1) = yoe_of doe)) as [Hsame|Hnew].
    + rewrite Hsame in H2.
      replace (doe + 1 - year_start (yoe_of doe))
        with (doe - year_start (yoe_of doe) + 1) in H2 by lia.
      destruct (yoe_of_year (doe + 1) ltac:(lia)) as [_ Hdoy'].
      rewrite Hsame in Hdoy'.
      destruct (month_day (doe - year_start (yoe_of doe))) as [mp d].
      destruct (month_day (doe - year_start (yoe_of doe) + 1)) as [mp' d'].
      lia.
    + destruct (month_day (doe - year_start (yoe_of doe))) as [mp d].
      destruct (month_day (doe + 1 - year_start (yoe_of (doe + 1)))) as [mp2 d2'].
      lia.
Qed.

(** A later day has a later date. *)
Lemma date_key_mono d1 d2 :
  d1 < d2 → date_key (civil_of_days d1) < date_key (civil_of_days d2).
Proof.
  intros Hlt. replace d2 with (d1 + 1 + Z.of_nat (Z.to_nat (d2 - d1 - 1))) by lia.
  induction (Z.to_nat (d2 - d1 - 1)) as [|n IH].
  - rewrite Z.add_0_r. apply date_key_next.
  - etrans; [apply IH|].
    replace (d1 + 1 + Z.of_nat (S n)) with (d1 + 1 + Z.of_nat n + 1) by lia.
    apply date_key_next.
Qed.


(** The calendar fields of an instant of the years 1 to 9999. *)
Lemma civil_of_ranges t :
  valid_instant t →
  let c := civil_of t in
  (c_year c, c_month c, c_day c) = civil_of_days (t / usec_per_day) ∧
  t = t / usec_per_day * usec_per_day
      + ((c_hour c * 60 + c_minute c) * 60 + c_second c) * 1000000 + c_microsecond c ∧
  1 ≤ c_year c ≤ 9999 ∧ 1 ≤ c_month c ≤ 12 ∧ 1 ≤ c_day c ≤ 31 ∧
  0 ≤ c_hour c < 24 ∧ 0 ≤ c_minute c < 60 ∧ 0 ≤ c_second c < 60 ∧
  0 ≤ c_microsecond c < 1000000.
Proof.
  unfold valid_instant, civil_of, usec_per_day. intros Ht. cbv zeta.
  change (86400 * 1000000) with 86400000000 in *.
  set (days := t / 86400000000).
  assert (0 ≤ days ≤ 3652058) as Hdays.
  { subst days. split; [apply Z.div_pos; lia|].
    apply Z.lt_succ_r. apply Z.div_lt_upper_bound; lia. }
  pose proof (civil_of_days_ranges days) as Hmd.
  assert (10101 ≤ date_key (civil_of_days days) ≤ 99991231) as Hkey.
  { split.
    - destruct (decide (days = 0)) as [->|Hne]; [vm_compute; discriminate|].
      pose proof (date_key_mono 0 days ltac:(lia)) as Hmono.
      change (date_key (civil_of_days 0)) with 10101 in Hmono. lia.
    - destruct (decide (days = 3652058)) as [->|Hne]; [vm_compute; discriminate|].
      pose proof (date_key_mono days 3652058 ltac:(lia)) as Hmono.
      change (date_key (civil_of_days 3652058)) with 99991231 in Hmono. lia. }
  destruct (civil_of_days days) as [[y m] d]. unfold date_key in Hkey.
  cbn [c_year c_month c_day c_hour c_minute c_second c_microsecond].
  set (rest := t mod 86400000000). set (secs := rest / 1000000).
  pose proof (Z_div_mod_eq_full t 86400000000) as Et. fold rest in Et. fold days in Et.
  pose proof (Z.mod_pos_bound t 86400000000 eq_refl) as Hrest. fold rest in Hrest.
  pose proof (Z_div_mod_eq_full rest 1000000) as Erest. fold secs in Erest.
  pose proof (Z.mod_pos_bound rest 1000000 eq_refl) as Hus.
  assert (0 ≤ secs < 86400) as Hsecs.
  { subst secs. split; [apply Z.div_pos; lia|apply Z.div_lt_upper_bound; lia]. }
  pose proof (Z_div_mod_eq_full secs 60) as Esecs.
  pose proof (Z.mod_pos_bound secs 60 eq_refl) as Hs.
  pose proof (Z_div_mod_eq_full (secs / 60) 60) as Emin.
  pose proof (Z.mod_pos_bound (secs / 60) 60 eq_refl) as Hmin.
  assert (secs / 60 / 60 = secs / 3600) as Ehour by (rewrite Z.div_div by lia; done).
  rewrite Ehour in Emin.
  assert (0 ≤ secs / 3600 < 24) as Hhour.
  { split; [apply Z.div_pos; lia|apply Z.div_lt_upper_bound; lia]. }
  split_and!; try done; lia.
Qed.

(** ** Formatted numbers *)

Lemma string_length_app (a b : string) :
  String.length (a +:+ b) = (String.length a + String.length b)%nat.
Proof.
  induction a as [|c a IH]; [done|].
  change (String c a +:+ b) with (String c (a +:+ b)).
  cbn [String.length]. by rewrite IH.
Qed.


Lemma length_zpad w n : String.length (zpad w n) = w.
Proof.
  revert n. induction w as [|w IH]; intros n; [done|].
  cbn [zpad]. rewrite string_length_app, IH. simpl. lia.
Qed.





(** ** Identifiers *)

Section Identifiers.
Variable K : Z.

End Identifiers.


(** ** Timestamps and their order *)

Lemma string_compare_refl (a : string) : String.compare a a = Eq.
Proof.
  induction a as [|c a IH]; [done|].
  cbn [String.compare]. unfold Ascii.compare. by rewrite N.compare_refl.
Qed.

Lemma string_compare_app (a x y : string) :
  String.compare (a +:+ x) (a +:+ y) = String.compare x y.
Proof.
  induction a as [|c a IH]; [done|].
  change (String c a +:+ x) with (String c (a +:+ x)).
  change (String c a +:+ y) with (String c (a +:+ y)).
  cbn [String.compare]. unfold Ascii.compare. by rewrite N.compare_refl.
Qed.

Lemma string_compare_app_Lt (a b x y : string) :
  String.length a = String.length b →
  String.compare a b = Lt → String.compare (a +:+ x) (b +:+ y) = Lt.
Proof.
  revert b. induction a as [|c a IH]; intros [|c' b] Hlen Hlt; try done.
  change (String c a +:+ x) with (String c (a +:+ x)).
  change (String c' b +:+ y) with (String c' (b +:+ y)).
  cbn [String.compare] in *. destruct (Ascii.compare c c'); try done.
  apply IH; [|done]. by injection Hlen.
Qed.

Lemma digit_compare n m :
  n mod 10 < m mod 10 → Ascii.compare (digit n) (digit m) = Lt.
Proof.
  intros Hlt. unfold Ascii.compare, digit.
  pose proof (Z.mod_pos_bound n 10 eq_refl). pose proof (Z.mod_pos_bound m 10 eq_refl).
  rewrite !N_ascii_embedding by lia. apply N.compare_lt_iff. lia.
Qed.

(** Zero-padded numbers of the same width compare as numbers. *)
Lemma zpad_compare w n m :
  0 ≤ n → n < m → m < 10 ^ Z.of_nat w →
  String.compare (zpad w n) (zpad w m) = Lt.
Proof.
  revert n m. induction w as [|w IH]; intros n m Hn Hlt Hm.
  - change (10 ^ Z.of_nat 0) with 1 in Hm. lia.
  - rewrite Nat2Z.inj_succ, Z.pow_succ_r in Hm by lia.
    cbn [zpad].
    pose proof (Z_div_mod_eq_full n 10). pose proof (Z_div_mod_eq_full m 10).
    pose proof (Z.mod_pos_bound n 10 eq_refl). pose proof (Z.mod_pos_bound m 10 eq_refl).
    destruct (decide (n / 10 = m / 10)) as [Heq|Hne].
    + rewrite Heq, string_compare_app. cbn [String.compare].
      rewrite digit_compare; [done|lia].
    + apply string_compare_app_Lt; [by rewrite !length_zpad|].
      apply IH; [apply Z.div_pos; lia|lia|].
      apply Z.div_lt_upper_bound; lia.
Qed.

(** The text [isoformat] writes orders instants of the years 1 to
    9999 as the clock does. *)
Lemma isoformat_Lt t1 t2 :
  valid_instant t1 → valid_instant t2 → t1 < t2 →
  String.compare (isoformat t1) (isoformat t2) = Lt.
Proof.
  intros H1 H2 Hlt.
  destruct (civil_of_ranges t1 H1) as (Hdate1 & Ht1 & Hy1 & Hm1 & Hd1 & Hh1 & Hi1 & Hs1 & Hu1).
  destruct (civil_of_ranges t2 H2) as (Hdate2 & Ht2 & Hy2 & Hm2 & Hd2 & Hh2 & Hi2 & Hs2 & Hu2).
  cbv zeta in *. unfold isoformat. cbv zeta.
  set (c1 := civil_of t1) in *. set (c2 := civil_of t2) in *.
  assert (t1 / usec_per_day ≤ t2 / usec_per_day) as Hdays
    by (apply Z.div_le_mono; [done|lia]).
  assert (date_key (c_year c1, c_month c1, c_day c1)
          ≤ date_key (c_year c2, c_month c2, c_day c2)) as Hkey.
  { rewrite Hdate1, Hdate2.
    destruct (decide (t1 / usec_per_day = t2 / usec_per_day)) as [->|Hne]; [done|].
    apply Z.lt_le_incl, date_key_mono. lia. }
  assert (date_key (c_year c1, c_month c1, c_day c1)
          = date_key (c_year c2, c_month c2, c_day c2) →
          t1 / usec_per_day = t2 / usec_per_day) as Hsame.
  { rewrite Hdate1, Hdate2. intros Heq.
    destruct (Z.lt_trichotomy (t1 / usec_per_day) (t2 / usec_per_day)) as [Hl|[He|Hg]];
      [|done|].
    - apply date_key_mono in Hl. lia.
    - apply date_key_mono in Hg. lia. }
  unfold date_key in Hkey, Hsame.
  change (10 ^ Z.of_nat 4) with 10000 in *.
  destruct (decide (c_year c1 = c_year c2)) as [Ey|Ny].
  2:{ apply string_compare_app_Lt; [by rewrite !length_zpad|].
      apply zpad_compare; [lia|lia|]. change (10 ^ Z.of_nat 4) with 10000. lia. }
  rewrite Ey, !string_compare_app.
  destruct (decide (c_month c1 = c_month c2)) as [Em|Nm].
  2:{ apply string_compare_app_Lt; [by rewrite !length_zpad|].
      apply zpad_compare; [lia|lia|]. change (10 ^ Z.of_nat 2) with 100. lia. }
  rewrite Em, !string_compare_app.
  destruct (decide (c_day c1 = c_day c2)) as [Ed|Nd].
  2:{ apply string_compare_app_Lt; [by rewrite !length_zpad|].
      apply zpad_compare; [lia|lia|]. change (10 ^ Z.of_nat 2) with 100. lia. }
  rewrite Ed, !string_compare_app.
  assert (t1 / usec_per_day = t2 / usec_per_day) as Eday by (apply Hsame; lia).
  rewrite Eday in Ht1. clear Hkey Hsame Hdays Hdate1 Hdate2.
  destruct (decide (c_hour c1 = c_hour c2)) as [Eh|Nh].
  2:{ apply string_compare_app_Lt; [by rewrite !length_zpad|].
      apply zpad_compare; [lia|lia|]. change (10 ^ Z.of_nat 2) with 100. lia. }
  rewrite Eh, !string_compare_app.
  destruct (decide (c_minute c1 = c_minute c2)) as [Ei|Ni].
  2:{ apply string_compare_app_Lt; [by rewrite !length_zpad|].
      apply zpad_compare; [lia|lia|]. change (10 ^ Z.of_nat 2) with 100. lia. }
  rewrite Ei, !string_compare_app.
  destruct (decide (c_second c1 = c_second c2)) as [Es|Ns].
  2:{ apply string_compare_app_Lt; [by rewrite !length_zpad|].
      apply zpad_compare; [lia|lia|]. change (10 ^ Z.of_nat 2) with 100. lia. }
  rewrite Es, !string_compare_app.
  assert (c_microsecond c1 < c_microsecond c2) as Hus by lia.
  destruct (Z.eqb_spec (c_microsecond c2) 0) as [E2|_]; [lia|].
  destruct (Z.eqb_spec (c_microsecond c1) 0) as [E1|_]; [done|].
  rewrite string_compare_app.
  apply zpad_compare; [lia|lia|]. change (10 ^ Z.of_nat 6) with 1000000. lia.
Qed.

Lemma isoformat_compare t1 t2 :
  valid_instant t1 → valid_instant t2 →
  String.compare (isoformat t1) (isoformat t2) = (t1 ?= t2).
Proof.
  intros H1 H2. destruct (Z.compare_spec t1 t2) as [->|Hlt|Hgt].
  - apply string_compare_refl.
  - by apply isoformat_Lt.
  - rewrite String.compare_antisym, (isoformat_Lt t2 t1) by done. done.
Qed.

Lemma stamped_newer a b ta tb :
  stamped a ta → stamped b tb → newer a b → tb ≤ ta.
Proof.
  intros [Hva Ha] [Hvb Hb]. unfold newer, String.le, String.leb.
  rewrite Ha, Hb, isoformat_compare by done.
  destruct (Z.compare_spec tb ta); [lia|lia|done].
Qed.

Lemma stamped_ltb a b ta tb :
  stamped a ta → stamped b tb →
  String.ltb (a_timestamp a) (a_timestamp b) = true ↔ ta < tb.
Proof.
  intros [Hva Ha] [Hvb Hb]. unfold String.ltb.
  rewrite Ha, Hb, isoformat_compare by done.
  destruct (Z.compare_spec ta tb); split; (done || lia).
Qed.

Lemma py_prefix_take {A} limit (l : list A) : ∃ n, py_prefix limit l = take n l.
Proof. unfold py_prefix. destruct (0 <=? limit); by eexists. Qed.

Lemma StronglySorted_take {A} (R : relation A) n (l : list A) :
  StronglySorted R l → StronglySorted R (take n l).
Proof.
  intros Hs. rewrite <- (take_drop n l) in Hs. by apply StronglySorted_app_1_l in Hs.
Qed.

Lemma StronglySorted_drop {A} (R : relation A) n (l : list A) :
  StronglySorted R l → StronglySorted R (drop n l).
Proof.
  intros Hs. rewrite <- (take_drop n l) in Hs. by apply StronglySorted_app_1_r in Hs.
Qed.

(** Sorting in descending order a list that ascends strictly turns
    it around. *)
Lemma insert_desc_smallest {A} (lt : A → A → bool) x l :
  Forall (λ y, lt x y = true) l → insert_desc lt x l = l ++ [x].
Proof.
  induction 1 as [|y l Hy _ IH]; simpl; [done|]. by rewrite Hy, IH.
Qed.

Lemma sort_desc_ascending {A} (lt : A → A → bool) l :
  StronglySorted (λ a b, lt a b = true) l → sort_desc lt l = reverse l.
Proof.
  induction 1 as [|x l _ IH Hx]; [done|].
  cbn [sort_desc foldr]. fold (sort_desc lt l).
  rewrite IH, reverse_cons. apply insert_desc_smallest. by apply Forall_reverse.
Qed.

(** X21. The query result is newest first by the clock, not only by the
    text of the timestamps: of two records of the result that carry
    the [isoformat] text of an instant of the years 1 to 9999, the
    one listed first was not stamped earlier.  This holds for every
    filter and every limit. *)
Theorem get_alerts_newest_first limit severity acknowledged s :
  StronglySorted (λ a b, ∀ ta tb, stamped a ta → stamped b tb → tb ≤ ta)
                 (get_alerts limit severity acknowledged s).
Proof.
  unfold get_alerts. cbv zeta.
  match goal with
  | |- StronglySorted _ (py_prefix _ ?l) =>
      destruct (py_prefix_take limit l) as [n ->]
  end.
  apply StronglySorted_take.
  eapply StronglySorted_weaken; [|apply by_timestamp_sorted].
  intros a b Hab ta tb Ha Hb. by eapply stamped_newer.
Qed.

Section Chronology.
Variable K : Z.

Lemma create_alert_stamped clk rq dr s a s' :
  create_alert K clk rq dr s = (Some a, s') →
  a_timestamp a = isoformat (t_stamp clk).
Proof.
  unfold create_alert, _should_create_alert. cbv zeta.
  case_bool_decide; simpl; intros; by simplify_eq.
Qed.

(** X22. The timestamps of two created alerts compare, as texts, the way
    the two clock readings they were written from compare: the order
    [get_alerts] sorts by is the order of creation times. *)
Theorem timestamps_order_as_clock clk1 rq1 dr1 s1 a1 s1' clk2 rq2 dr2 s2 a2 s2' :
  valid_instant (t_stamp clk1) → valid_instant (t_stamp clk2) →
  create_alert K clk1 rq1 dr1 s1 = (Some a1, s1') →
  create_alert K clk2 rq2 dr2 s2 = (Some a2, s2') →
  (String.ltb (a_timestamp a1) (a_timestamp a2) = true ↔ t_stamp clk1 < t_stamp clk2) ∧
  (a_timestamp a1 = a_timestamp a2 ↔ t_stamp clk1 = t_stamp clk2).
Proof.
  intros Hv1 Hv2 Hc1 Hc2.
  apply create_alert_stamped in Hc1, Hc2.
  split; [by apply stamped_ltb|].
  rewrite Hc1, Hc2. split; [|by intros ->].
  intros Heq. apply Z.compare_eq. rewrite <- isoformat_compare by done.
  rewrite Heq. apply string_compare_refl.
Qed.

Lemma created_stamped calls s :
  Forall (λ a, ∃ t, t ∈ stamps calls ∧ a_timestamp a = isoformat t)
         (omap id (fst (create_alerts K calls s))).
Proof.
  revert s. induction calls as [|[[clk rq] dr] calls IH]; intros s.
  - constructor.
  - rewrite create_alerts_cons. cbn [fst snd].
    assert (Forall (λ a, ∃ t, t ∈ stamps ((clk, rq, dr) :: calls)
                              ∧ a_timestamp a = isoformat t)
                   (omap id (fst (create_alerts K calls
                                    (snd (create_alert K clk rq dr s)))))) as Hrest.
    { eapply Forall_impl; [apply IH|]. intros a (t & Ht & Ha).
      exists t. split; [|done]. unfold stamps. rewrite fmap_cons. by right. }
    destruct (create_alert K clk rq dr s) as [[a|] s1] eqn:E; cbn [fst snd] in *.
    + change (list_omap _ _ id (Some a :: ?rs)) with (a :: omap id rs).
      constructor; [|done]. exists (t_stamp clk). split.
      * unfold stamps. rewrite fmap_cons. by left.
      * by eapply create_alert_stamped.
    + done.
Qed.

Lemma created_ascending calls s :
  Forall valid_instant (stamps calls) →
  StronglySorted Z.lt (stamps calls) →
  StronglySorted (λ a b, String.ltb (a_timestamp a) (a_timestamp b) = true)
                 (omap id (fst (create_alerts K calls s))).
Proof.
  revert s. induction calls as [|[[clk rq] dr] calls IH]; intros s Hvalid Hclock.
  - constructor.
  - unfold stamps in Hvalid, Hclock. rewrite fmap_cons in Hvalid, Hclock.
    fold (stamps calls) in Hvalid, Hclock. cbn [fst] in Hvalid, Hclock.
    apply Forall_cons in Hvalid as [Hv Hvalid].
    apply StronglySorted_inv in Hclock as [Hclock Hlater].
    rewrite create_alerts_cons. cbn [fst snd].
    specialize (IH (snd (create_alert K clk rq dr s)) Hvalid Hclock).
    pose proof (created_stamped calls (snd (create_alert K clk rq dr s))) as Hst.
    destruct (create_alert K clk rq dr s) as [[a|] s1] eqn:E; cbn [fst snd] in *.
    + change (list_omap _ _ id (Some a :: ?rs)) with (a :: omap id rs).
      constructor; [done|].
      eapply Forall_impl; [exact Hst|]. intros b (t & Ht & Hb). cbv beta.
      apply (stamped_ltb a b (t_stamp clk) t).
      * split; [done|]. by eapply create_alert_stamped.
      * split; [|done]. by eapply (proj1 (Forall_forall _ _) Hvalid).
      * by eapply (proj1 (Forall_forall _ _) Hlater).
    + done.
Qed.

(** X23. A run on an empty store whose timestamp readings strictly
    increase within the years 1 to 9999: the unfiltered query gives
    the newest [limit] of the records still in the store, the last
    created first. *)
Theorem get_alerts_after_run limit calls s :
  alerts s = [] →
  Forall valid_instant (stamps calls) →
  StronglySorted Z.lt (stamps calls) →
  0 ≤ limit →
  let run := create_alerts K calls s in
  get_alerts limit None None (snd run)
    = take (Z.to_nat limit) (reverse (py_suffix alerts_maxlen (omap id (fst run)))).
Proof.
  intros Hempty Hvalid Hclock Hlimit. cbv zeta.
  unfold get_alerts. cbv zeta.
  rewrite create_alerts_alerts, Hempty.
  rewrite foldl_deque_append_suffix by (simpl; unfold alerts_maxlen; lia).
  rewrite app_nil_l.
  rewrite sort_desc_ascending.
  - unfold py_prefix. by destruct (Z.leb_spec 0 limit); [|lia].
  - unfold py_suffix. apply StronglySorted_drop. by apply created_ascending.
Qed.
End Chronology.


Section OwnRecords.
Variable K : Z.
Variable parse : string → option datetime.


End OwnRecords.

(** * The further properties at concrete inputs *)

Lemma by_severity_counts_witness :
  alerts mixed_state ≠ [] ∧
  get_statistics fromisoformat_canonical (t0 + 6000000) mixed_state
    = Some mixed_statistics ∧
  default 0%nat (dict_get "high" (by_severity mixed_statistics))
    = length (filter (λ a, a_severity a = "high") (alerts mixed_state)) ∧
  sum_list (by_severity mixed_statistics).*2 = total_alerts mixed_statistics.
Proof.
  assert (alerts mixed_state ≠ []) as Hne by (vm_compute; discriminate).
  assert (get_statistics fromisoformat_canonical (t0 + 6000000) mixed_state
          = Some mixed_statistics) as Hst by (vm_compute; reflexivity).
  destruct (by_severity_counts fromisoformat_canonical _ _ _ Hne Hst)
    as (Hcount & _ & _ & _ & Hsum).
  exact (conj Hne (conj Hst (conj (Hcount "high") Hsum))).
Defined.

Lemma by_ip_top_ten_witness :
  alerts mixed_state ≠ [] ∧
  get_statistics fromisoformat_canonical (t0 + 6000000) mixed_state
    = Some mixed_statistics ∧
  (length (by_ip mixed_statistics) ≤ 10)%nat ∧
  StronglySorted more (by_ip mixed_statistics).
Proof.
  assert (alerts mixed_state ≠ []) as Hne by (vm_compute; discriminate).
  assert (get_statistics fromisoformat_canonical (t0 + 6000000) mixed_state
          = Some mixed_statistics) as Hst by (vm_compute; reflexivity).
  pose proof (by_ip_top_ten fromisoformat_canonical _ _ _ Hne Hst) as Htop.
  cbv zeta in Htop. destruct Htop as (Hlen & _ & Hsorted & _).
  exact (conj Hne (conj Hst (conj Hlen Hsorted))).
Defined.

Lemma recent_count_last_hour_witness :
  alerts mixed_state ≠ [] ∧
  get_statistics fromisoformat_canonical (t0 + 6000000) mixed_state
    = Some mixed_statistics ∧
  (recent_count mixed_statistics ≤ total_alerts mixed_statistics)%nat.
Proof.
  assert (alerts mixed_state ≠ []) as Hne by (vm_compute; discriminate).
  assert (get_statistics fromisoformat_canonical (t0 + 6000000) mixed_state
          = Some mixed_statistics) as Hst by (vm_compute; reflexivity).
  destruct (recent_count_last_hour fromisoformat_canonical _ _ _ Hne Hst) as [_ Hle].
  exact (conj Hne (conj Hst Hle)).
Defined.

Lemma log_after_run_witness :
  history_file (init Absent) ≠ Unreadable ∧
  omap id (fst (create_alerts 10 (paced_calls 1000000 2) (init Absent))) ≠ [] ∧
  history_file (snd (create_alerts 10 (paced_calls 1000000 2) (init Absent)))
    = Stored (py_suffix history_cap
                (records (history_file (init Absent))
                 ++ omap id (fst (create_alerts 10 (paced_calls 1000000 2) (init Absent))))).
Proof.
  assert (history_file (init Absent) ≠ Unreadable) as Hfile by discriminate.
  assert (omap id (fst (create_alerts 10 (paced_calls 1000000 2) (init Absent))) ≠ [])
    as Hrecs by (vm_compute; discriminate).
  exact (conj Hfile (conj Hrecs (log_after_run 10 _ _ Hfile Hrecs))).
Defined.

Lemma unreadable_history_stays_unreadable_witness :
  history_file (init Unreadable) = Unreadable ∧
  history_file (snd (create_alerts 10 (paced_calls 1000000 2) (init Unreadable)))
    = Unreadable.
Proof.
  assert (history_file (init Unreadable) = Unreadable) as Hfile by reflexivity.
  exact (conj Hfile
           (proj1 (unreadable_history_stays_unreadable 10 (paced_calls 1000000 2)
                     (init Unreadable) Hfile))).
Defined.

Lemma restart_restores_store_witness :
  Absent ≠ Unreadable ∧
  alerts (init (history_file (snd (create_alerts 10 (paced_calls 1000000 2) (init Absent)))))
    = alerts (snd (create_alerts 10 (paced_calls 1000000 2) (init Absent))).
Proof.
  assert (Absent ≠ Unreadable) as Hfile by discriminate.
  pose proof (restart_restores_store 10 Absent (paced_calls 1000000 2) Hfile) as Hrun.
  cbv zeta in Hrun. destruct Hrun as (_ & Hsame & _).
  exact (conj Hfile Hsame).
Defined.

Lemma window_never_exceeds_capacity_witness :
  reachable 1 fromisoformat_canonical one_alert_state ∧
  (length (recent_alerts one_alert_state) ≤ recent_maxlen)%nat ∧
  Z.of_nat (length (recent_alerts one_alert_state)) ≤ Z.max 0 1.
Proof.
  assert (reachable 1 fromisoformat_canonical one_alert_state) as Hreach
    by (apply reach_create, reach_init).
  exact (conj Hreach (window_never_exceeds_capacity 1 fromisoformat_canonical _ Hreach)).
Defined.

(** Two calls a tenth of a second apart fill a window of two; the
    third, another tenth later, is judged by the two entries. *)
Lemma accepted_iff_room_in_last_minute_witness :
  2 ≤ Z.of_nat recent_maxlen ∧
  recent_alerts (init Absent) = [] ∧
  Sorted Z.le (timeline (paced_calls 100000 2
                         ++ [(third_clock, demo_request 2, demo_detection "high")])) ∧
  (is_Some (fst (create_alert 2 third_clock (demo_request 2) (demo_detection "high")
                   (snd (create_alerts 2 (paced_calls 100000 2) (init Absent))))) ↔
   Z.of_nat (length (filter (λ t, t_check third_clock - timedelta 0 0 1 ≤ t)
                       (recorded (paced_calls 100000 2)
                          (fst (create_alerts 2 (paced_calls 100000 2) (init Absent))))))
     < 2).
Proof.
  assert (2 ≤ Z.of_nat recent_maxlen) as Hfits by (unfold recent_maxlen; lia).
  assert (recent_alerts (init Absent) = []) as Hempty by reflexivity.
  assert (Sorted Z.le (timeline (paced_calls 100000 2
            ++ [(third_clock, demo_request 2, demo_detection "high")]))) as Hclock
    by by_computation.
  exact (conj Hfits (conj Hempty (conj Hclock
           (accepted_iff_room_in_last_minute 2 Hfits _ _ _ _ _ Hempty Hclock)))).
Defined.

Lemma lookup_after_create_witness :
  create_alert 1 first_clock (demo_request 0) (demo_detection "high") (init Absent)
    = (Some first_record, one_alert_state) ∧
  (∀ b, b ∈ alerts (init Absent) → a_id b ≠ a_id first_record) ∧
  get_alert_by_id (a_id first_record) one_alert_state = Some first_record.
Proof.
  assert (∀ b, b ∈ alerts (init Absent) → a_id b ≠ a_id first_record) as Hfresh.
  { intros b Hb. destruct (not_elem_of_nil b Hb). }
  assert (create_alert 1 first_clock (demo_request 0) (demo_detection "high") (init Absent)
          = (Some first_record, one_alert_state)) as Hcreate by (vm_compute; reflexivity).
  exact (conj Hcreate (conj Hfresh
           (proj2 (lookup_after_create 1 _ _ _ _ _ _ Hcreate) Hfresh))).
Defined.

Lemma lookup_after_acknowledge_witness :
  fst (acknowledge_alert (t0 + 5000000) "ALERT-20240305070810000043" "seen"
                         two_alert_state) = true ∧
  a_id <$> alerts (snd (acknowledge_alert (t0 + 5000000) "ALERT-20240305070810000043"
                                          "seen" two_alert_state))
    = a_id <$> alerts two_alert_state.
Proof.
  assert (fst (acknowledge_alert (t0 + 5000000) "ALERT-20240305070810000043" "seen"
                                 two_alert_state) = true) as Hack
    by (vm_compute; reflexivity).
  pose proof (lookup_after_acknowledge _ _ _ _ Hack) as Hlook.
  cbv zeta in Hlook. destruct Hlook as (_ & _ & Hids).
  exact (conj Hack Hids).
Defined.

Lemma acknowledge_twice_witness :
  fst (acknowledge_alert (t0 + 5000000) "ALERT-20240305070810000043" "seen"
                         two_alert_state) = true ∧
  alerts (snd (acknowledge_alert (t0 + 9000000) "ALERT-20240305070810000043" "closed"
                 (snd (acknowledge_alert (t0 + 5000000) "ALERT-20240305070810000043"
                                         "seen" two_alert_state))))
    = alerts (snd (acknowledge_alert (t0 + 9000000) "ALERT-20240305070810000043"
                                     "closed" two_alert_state)).
Proof.
  assert (fst (acknowledge_alert (t0 + 5000000) "ALERT-20240305070810000043" "seen"
                                 two_alert_state) = true) as Hack
    by (vm_compute; reflexivity).
  pose proof (acknowledge_twice (t0 + 5000000) (t0 + 9000000)
                "ALERT-20240305070810000043" "seen" "closed" two_alert_state Hack)
    as Htwice.
  cbv zeta in Htwice. destruct Htwice as (_ & Hstore & _).
  exact (conj Hack Hstore).
Defined.

Lemma acknowledgment_shadowed_after_restart_witness :
  history_file one_alert_state ≠ Unreadable ∧
  alerts one_alert_state = records (history_file one_alert_state) ∧
  (length (alerts one_alert_state) < alerts_maxlen)%nat ∧
  fst (acknowledge_alert (t0 + 5000000) "ALERT-20240305070809000043" "seen"
                         one_alert_state) = true ∧
  ∃ a,
    get_alert_by_id "ALERT-20240305070809000043" one_alert_state = Some a ∧
    get_alert_by_id "ALERT-20240305070809000043"
      (init (history_file
               (snd (acknowledge_alert (t0 + 5000000) "ALERT-20240305070809000043"
                                       "seen" one_alert_state)))) = Some a.
Proof.
  assert (history_file one_alert_state = Stored [first_record]) as Hstored
    by (vm_compute; reflexivity).
  assert (history_file one_alert_state ≠ Unreadable) as Hfile
    by (rewrite Hstored; discriminate).
  assert (alerts one_alert_state = records (history_file one_alert_state)) as Hsync
    by (vm_compute; reflexivity).
  assert (length (alerts one_alert_state) < alerts_maxlen)%nat as Hroom.
  { rewrite Hsync, Hstored. unfold alerts_maxlen. simpl. lia. }
  assert (fst (acknowledge_alert (t0 + 5000000) "ALERT-20240305070809000043" "seen"
                                 one_alert_state) = true) as Hack
    by (vm_compute; reflexivity).
  pose proof (acknowledgment_shadowed_after_restart _ _ _ _ Hfile Hsync Hroom Hack)
    as Hshadow.
  cbv zeta in Hshadow. destruct Hshadow as (a & Hold & _ & _ & Hstale).
  split_and!; [exact Hfile|exact Hsync|exact Hroom|exact Hack|].
  exists a. exact (conj Hold Hstale).
Defined.


Lemma purge_undone_by_restart_witness :
  Absent ≠ Unreadable ∧
  clear_old_alerts fromisoformat_canonical (t0 + 2500000) 0
      (snd (create_alerts 10 mixed_calls (init Absent))) = Some purged_state ∧
  alerts (init (history_file purged_state))
    = alerts (snd (create_alerts 10 mixed_calls (init Absent))).
Proof.
  assert (Absent ≠ Unreadable) as Hfile by discriminate.
  assert (clear_old_alerts fromisoformat_canonical (t0 + 2500000) 0
            (snd (create_alerts 10 mixed_calls (init Absent))) = Some purged_state)
    as Hclear by (vm_compute; reflexivity).
  exact (conj Hfile (conj Hclear
           (purge_undone_by_restart 10 fromisoformat_canonical Absent mixed_calls
              (t0 + 2500000) 0 purged_state Hfile Hclear))).
Defined.

Lemma get_alerts_limit_and_ties_witness :
  0 ≤ 1 ∧ 1 ≤ 3 ∧
  get_alerts 1 (Some "high") None mixed_state
    `prefix_of` get_alerts 3 (Some "high") None mixed_state.
Proof.
  assert (0 ≤ 1) as H1 by lia.
  assert (1 ≤ 3) as H2 by lia.
  exact (conj H1 (conj H2
           (proj1 (get_alerts_limit_and_ties 1 3 (Some "high") None mixed_state
                     "2024-03-05T07:08:10.000044" H1 H2)))).
Defined.

Lemma get_alerts_negative_limit_witness :
  -1 < 0 ∧
  get_alerts (-1) None None mixed_state
    = take (length (get_alerts (Z.of_nat (length (alerts mixed_state))) None None
                               mixed_state) - Z.to_nat (- -1))
           (get_alerts (Z.of_nat (length (alerts mixed_state))) None None mixed_state).
Proof.
  assert (-1 < 0) as Hneg by lia.
  pose proof (get_alerts_negative_limit (-1) None None mixed_state Hneg) as Hdrop.
  cbv zeta in Hdrop. exact (conj Hneg (proj1 Hdrop)).
Defined.


(** Two admitted calls stamped two tenths of a second apart. *)
Lemma timestamps_order_as_clock_witness :
  valid_instant (t_stamp first_clock) ∧
  valid_instant (t_stamp third_clock) ∧
  ∃ a2 s2',
    create_alert 1 first_clock (demo_request 0) (demo_detection "high") (init Absent)
      = (Some first_record, one_alert_state) ∧
    create_alert 1 third_clock (demo_request 2) (demo_detection "high") (init Absent)
      = (Some a2, s2') ∧
    (String.ltb (a_timestamp first_record) (a_timestamp a2) = true
     ↔ t_stamp first_clock < t_stamp third_clock).
Proof.
  assert (valid_instant (t_stamp first_clock)) as Hv1 by by_computation.
  assert (valid_instant (t_stamp third_clock)) as Hv3 by by_computation.
  assert (∃ a2 s2',
            create_alert 1 third_clock (demo_request 2) (demo_detection "high")
                         (init Absent) = (Some a2, s2')) as (a2 & s2' & Hthird)
    by (eexists _, _; vm_compute; reflexivity).
  assert (create_alert 1 first_clock (demo_request 0) (demo_detection "high") (init Absent)
          = (Some first_record, one_alert_state)) as Hfirst by (vm_compute; reflexivity).
  refine (conj Hv1 (conj Hv3 (ex_intro _ a2 (ex_intro _ s2' _)))).
  exact (conj Hfirst (conj Hthird
           (proj1 (timestamps_order_as_clock 1 _ _ _ _ _ _ _ _ _ _ _ _
                     Hv1 Hv3 Hfirst Hthird)))).
Defined.

(** Two calls a second apart on a new manager; the newest one is
    asked for. *)
Lemma get_alerts_after_run_witness :
  alerts (init Absent) = [] ∧
  Forall valid_instant (stamps (paced_calls 1000000 2)) ∧
  StronglySorted Z.lt (stamps (paced_calls 1000000 2)) ∧
  0 ≤ 1 ∧
  get_alerts 1 None None (snd (create_alerts 10 (paced_calls 1000000 2) (init Absent)))
    = take (Z.to_nat 1)
        (reverse (py_suffix alerts_maxlen
                    (omap id (fst (create_alerts 10 (paced_calls 1000000 2)
                                                 (init Absent)))))).
Proof.
  assert (alerts (init Absent) = []) as Hempty by reflexivity.
  assert (Forall valid_instant (stamps (paced_calls 1000000 2))) as Hvalid
    by by_computation.
  assert (StronglySorted Z.lt (stamps (paced_calls 1000000 2))) as Hclock
    by by_computation.
  assert (0 ≤ 1) as Hlimit by lia.
  exact (conj Hempty (conj Hvalid (conj Hclock (conj Hlimit
           (get_alerts_after_run 10 1 (paced_calls 1000000 2) (init Absent)
              Hempty Hvalid Hclock Hlimit))))).
Defined.

